(** * Conversation session controller of the chat front end

    A shallow embedding of the stateful core of the repository:

    - [src/lib/data/conversations.ts]: the [Conversation] and [ChatMessage]
      records, the seeded [mockConversations] and [mockMessages], and the id
      helpers [generateConversationId] and [generateMessageId];
    - [src/routes/+page.svelte]: the page controller, that is the four
      [$state] variables, the mount effect and the handlers
      [handleSelectConversation], [handleCreateNew], [handleSendMessage],
      [updateConversationMetadata] and [generateMockResponse];
    - [src/routes/Input.svelte]: the text box, [handleSend] and
      [handleKeyDown]; [src/lib/components/Input.svelte]: the form field
      with its password toggle; and [formatTimestamp] of the data module,
      which the sidebar calls.

    Conventions of the model.

    - A JS string is a sequence of UTF-16 code units.  It is modelled by
      [string]; one [ascii] stands for one code unit in the range 0..255
      (Latin-1), a range that [toLowerCase], [trim], [substring] and
      [includes] map into itself.
    - A [Date] is its time value, a [Z] of milliseconds.  [messageCount] is
      a [Z]; Number arithmetic is exact on the counts considered here.
    - The handlers run in a state-and-exception monad over [World]: the page
      variables, a clock oracle answering [Date.now()] and [new Date()], and
      an oracle for the random suffix of message ids.
    - [handleSendMessage] is [async]: the code before its [await] is
      [handleSendMessage], the code after it is [handleSendMessage_resume],
      and the pending timer is a [Pending] value kept by [System]. *)

From Stdlib Require Import ZArith Lia Ascii String DecimalString DecimalZ DecimalPos.
From stdpp Require Import base strings list gmap.

Local Open Scope Z_scope.
Local Open Scope string_scope.

(** ** JavaScript string primitives *)

Module Js.

Definition nl : string := String "010"%char EmptyString.
Definition dq : string := String "034"%char EmptyString.

(** [String.prototype.toLowerCase] on one code unit: [A-Z] and the
    Latin-1 capitals U+00C0..U+00DE (U+00D7, the multiplication sign,
    excepted) move up by 32. *)
Definition toLowerCase_unit (c : ascii) : ascii :=
  let n := nat_of_ascii c in
  if ((65 <=? n) && (n <=? 90))%nat
     || ((192 <=? n) && (n <=? 222) && negb (n =? 215))%nat
  then ascii_of_nat (n + 32)
  else c.

Fixpoint toLowerCase (s : string) : string :=
  match s with
  | EmptyString => EmptyString
  | String c s' => String (toLowerCase_unit c) (toLowerCase s')
  end.

(** [s.includes(search)]: [search] occurs in [s] at some position. *)
Fixpoint includes (s search : string) : bool :=
  String.prefix search s
  || match s with
     | EmptyString => false
     | String _ s' => includes s' search
     end.

(** [s.substring(start, end)]: both indices are clamped to the length and
    swapped when out of order. *)
Definition substring (s : string) (start end_ : nat) : string :=
  let len := String.length s in
  let a := Nat.min start len in
  let b := Nat.min end_ len in
  String.substring (Nat.min a b) (Nat.max a b - Nat.min a b) s.

(** White space and line terminators of ECMAScript in the Latin-1 range:
    TAB, LF, VT, FF, CR, SP and NBSP. *)
Definition isWhiteSpace (c : ascii) : bool :=
  let n := nat_of_ascii c in
  ((9 <=? n) && (n <=? 13) || (n =? 32) || (n =? 160))%nat.

Fixpoint trimStart (s : string) : string :=
  match s with
  | EmptyString => EmptyString
  | String c s' => if isWhiteSpace c then trimStart s' else s
  end.

Fixpoint trimEnd (s : string) : string :=
  match s with
  | EmptyString => EmptyString
  | String c s' =>
      match trimEnd s' with
      | EmptyString => if isWhiteSpace c then EmptyString else String c EmptyString
      | r => String c r
      end
  end.

Definition trim (s : string) : string := trimEnd (trimStart s).

(** A string is truthy unless it is empty. *)
Definition truthy (s : string) : bool :=
  match s with
  | EmptyString => false
  | String _ _ => true
  end.

(** [`${n}`] for an integral Number in the range of time values: plain
    decimal digits, with a leading minus sign below zero. *)
Definition Number_toString (n : Z) : string :=
  NilZero.string_of_int (Z.to_int n).

End Js.

(** ** The response classifier ([+page.svelte], [generateMockResponse]) *)

Definition issuesReply : string :=
  "I can help you with issues. Would you like me to:" +:+ Js.nl +:+ Js.nl
  +:+ "1. List open issues" +:+ Js.nl
  +:+ "2. Search for specific issues" +:+ Js.nl
  +:+ "3. Create a new issue" +:+ Js.nl
  +:+ "4. Get details about a particular issue" +:+ Js.nl +:+ Js.nl
  +:+ "What would you like to do?".

Definition statsReply : string :=
  "I can provide repository statistics and team velocity metrics. Let me fetch the latest data for you...".

Definition pullRequestsReply : string :=
  "I can help you with pull requests. Would you like me to:" +:+ Js.nl +:+ Js.nl
  +:+ "1. List open pull requests" +:+ Js.nl
  +:+ "2. Review a specific PR" +:+ Js.nl
  +:+ "3. Get PR details" +:+ Js.nl +:+ Js.nl
  +:+ "What would you like to do?".

Definition labelsReply : string :=
  "I can help you manage labels. Would you like to:" +:+ Js.nl +:+ Js.nl
  +:+ "1. List all labels" +:+ Js.nl
  +:+ "2. Create a new label" +:+ Js.nl
  +:+ "3. Update existing labels" +:+ Js.nl
  +:+ "4. Get labels for a specific issue" +:+ Js.nl +:+ Js.nl
  +:+ "What would you like to do?".

Definition fallbackPrefix : string :=
  "I understand you're asking about " +:+ Js.dq.

Definition fallbackSuffix : string :=
  Js.dq +:+ ". Let me help you with that. Could you provide more details about what you'd like me to do?".

Definition generateMockResponse (userMessage : string) : string :=
  let lowerMessage := Js.toLowerCase userMessage in
  if Js.includes lowerMessage "issue" || Js.includes lowerMessage "bug" then
    issuesReply
  else if Js.includes lowerMessage "stat" || Js.includes lowerMessage "metric"
          || Js.includes lowerMessage "velocity" then
    statsReply
  else if Js.includes lowerMessage "pull request" || Js.includes lowerMessage "pr" then
    pullRequestsReply
  else if Js.includes lowerMessage "label" then
    labelsReply
  else
    fallbackPrefix +:+ userMessage +:+ fallbackSuffix.

(** ** Data model ([conversations.ts]) *)

Module Conversation.
Record t := mk {
  id : string;
  title : string;
  lastMessage : string;
  timestamp : Z;
  messageCount : Z
}.
End Conversation.

Module ChatMessage.
Inductive Sender := user | model.
Inductive Status := sending | processing | complete | error.
Record t := mk {
  id : string;
  from : Sender;
  content : string;
  timestamp : Z;
  status : option Status
}.
End ChatMessage.

(** The seeded data.  [now] is the module constant [const now = Date.now()]
    read once when the module is loaded. *)
Section MockData.
Variable now : Z.

Definition thirtyMinutesAgo : Z := now - 1000 * 60 * 30.
Definition twoHoursAgo : Z := now - 1000 * 60 * 60 * 2.
Definition yesterday : Z := now - 1000 * 60 * 60 * 24.
Definition threeDaysAgo : Z := now - 1000 * 60 * 60 * 24 * 3.
Definition lastWeek : Z := now - 1000 * 60 * 60 * 24 * 7.

Definition mockConversations : list Conversation.t :=
  [ {| Conversation.id := "conv-1";
       Conversation.title := "GitHub Issue Analysis";
       Conversation.lastMessage := "I found 3 open issues related to authentication...";
       Conversation.timestamp := thirtyMinutesAgo;
       Conversation.messageCount := 4 |};
    {| Conversation.id := "conv-2";
       Conversation.title := "Repository Statistics";
       Conversation.lastMessage := "The repository has 45 open issues and 12 pull requests.";
       Conversation.timestamp := twoHoursAgo;
       Conversation.messageCount := 6 |};
    {| Conversation.id := "conv-3";
       Conversation.title := "Team Velocity Metrics";
       Conversation.lastMessage := "Based on the data, your team closed 23 issues this week.";
       Conversation.timestamp := yesterday;
       Conversation.messageCount := 5 |};
    {| Conversation.id := "conv-4";
       Conversation.title := "Codebase Query";
       Conversation.lastMessage := "The authentication module is located in src/auth/";
       Conversation.timestamp := threeDaysAgo;
       Conversation.messageCount := 3 |};
    {| Conversation.id := "conv-5";
       Conversation.title := "Issue Creation Help";
       Conversation.lastMessage := "I can help you create a new issue. What would you like to track?";
       Conversation.timestamp := lastWeek;
       Conversation.messageCount := 7 |};
    {| Conversation.id := "conv-6";
       Conversation.title := "Label Management";
       Conversation.lastMessage := "All labels have been updated successfully.";
       Conversation.timestamp := now - 1000 * 60 * 15;
       Conversation.messageCount := 4 |};
    {| Conversation.id := "conv-7";
       Conversation.title := "Pull Request Review";
       Conversation.lastMessage := "The PR #42 has been reviewed and approved.";
       Conversation.timestamp := now - 1000 * 60 * 45;
       Conversation.messageCount := 8 |} ].

Definition messages_conv_1 : list ChatMessage.t :=
  [ {| ChatMessage.id := "msg-1-1";
       ChatMessage.from := ChatMessage.user;
       ChatMessage.content :=
         "Can you analyze the open issues in the repository?";
       ChatMessage.timestamp := thirtyMinutesAgo - 1000 * 60 * 10;
       ChatMessage.status := Some ChatMessage.complete |};
    {| ChatMessage.id := "msg-1-2";
       ChatMessage.from := ChatMessage.model;
       ChatMessage.content :=
         "I'll analyze the open issues for you. Let me fetch the data...";
       ChatMessage.timestamp := thirtyMinutesAgo - 1000 * 60 * 9;
       ChatMessage.status := Some ChatMessage.complete |};
    {| ChatMessage.id := "msg-1-3";
       ChatMessage.from := ChatMessage.user;
       ChatMessage.content :=
         "Focus on authentication-related issues";
       ChatMessage.timestamp := thirtyMinutesAgo - 1000 * 60 * 5;
       ChatMessage.status := Some ChatMessage.complete |};
    {| ChatMessage.id := "msg-1-4";
       ChatMessage.from := ChatMessage.model;
       ChatMessage.content :=
         "I found 3 open issues related to authentication:" +:+ Js.nl +:+ Js.nl +:+ "1. Issue #42: " +:+ Js.dq +:+ "OAuth token refresh failing" +:+ Js.dq +:+ Js.nl +:+ "2. Issue #58: " +:+ Js.dq +:+ "Session timeout too short" +:+ Js.dq +:+ Js.nl +:+ "3. Issue #71: " +:+ Js.dq +:+ "Password reset email not sending" +:+ Js.dq +:+ Js.nl +:+ Js.nl +:+ "Would you like me to get more details on any of these?";
       ChatMessage.timestamp := thirtyMinutesAgo;
       ChatMessage.status := Some ChatMessage.complete |} ].

Definition messages_conv_2 : list ChatMessage.t :=
  [ {| ChatMessage.id := "msg-2-1";
       ChatMessage.from := ChatMessage.user;
       ChatMessage.content :=
         "Show me repository statistics";
       ChatMessage.timestamp := twoHoursAgo - 1000 * 60 * 20;
       ChatMessage.status := Some ChatMessage.complete |};
    {| ChatMessage.id := "msg-2-2";
       ChatMessage.from := ChatMessage.model;
       ChatMessage.content :=
         "Fetching repository statistics...";
       ChatMessage.timestamp := twoHoursAgo - 1000 * 60 * 19;
       ChatMessage.status := Some ChatMessage.complete |};
    {| ChatMessage.id := "msg-2-3";
       ChatMessage.from := ChatMessage.model;
       ChatMessage.content :=
         "Here are the current repository statistics:" +:+ Js.nl +:+ Js.nl +:+ "- Open Issues: 45" +:+ Js.nl +:+ "- Closed Issues: 234" +:+ Js.nl +:+ "- Open Pull Requests: 12" +:+ Js.nl +:+ "- Merged Pull Requests: 189" +:+ Js.nl +:+ "- Contributors: 28" +:+ Js.nl +:+ "- Stars: 1,234";
       ChatMessage.timestamp := twoHoursAgo - 1000 * 60 * 18;
       ChatMessage.status := Some ChatMessage.complete |};
    {| ChatMessage.id := "msg-2-4";
       ChatMessage.from := ChatMessage.user;
       ChatMessage.content :=
         "What about the last 30 days?";
       ChatMessage.timestamp := twoHoursAgo - 1000 * 60 * 10;
       ChatMessage.status := Some ChatMessage.complete |};
    {| ChatMessage.id := "msg-2-5";
       ChatMessage.from := ChatMessage.model;
       ChatMessage.content :=
         "In the last 30 days:" +:+ Js.nl +:+ Js.nl +:+ "- 12 new issues opened" +:+ Js.nl +:+ "- 18 issues closed" +:+ Js.nl +:+ "- 5 new pull requests" +:+ Js.nl +:+ "- 8 pull requests merged";
       ChatMessage.timestamp := twoHoursAgo - 1000 * 60 * 9;
       ChatMessage.status := Some ChatMessage.complete |};
    {| ChatMessage.id := "msg-2-6";
       ChatMessage.from := ChatMessage.model;
       ChatMessage.content :=
         "The repository has 45 open issues and 12 pull requests.";
       ChatMessage.timestamp := twoHoursAgo;
       ChatMessage.status := Some ChatMessage.complete |} ].

Definition messages_conv_3 : list ChatMessage.t :=
  [ {| ChatMessage.id := "msg-3-1";
       ChatMessage.from := ChatMessage.user;
       ChatMessage.content :=
         "What's our team velocity this week?";
       ChatMessage.timestamp := yesterday - 1000 * 60 * 30;
       ChatMessage.status := Some ChatMessage.complete |};
    {| ChatMessage.id := "msg-3-2";
       ChatMessage.from := ChatMessage.model;
       ChatMessage.content :=
         "Calculating team velocity metrics...";
       ChatMessage.timestamp := yesterday - 1000 * 60 * 29;
       ChatMessage.status := Some ChatMessage.complete |};
    {| ChatMessage.id := "msg-3-3";
       ChatMessage.from := ChatMessage.model;
       ChatMessage.content :=
         "Based on the data, your team closed 23 issues this week.";
       ChatMessage.timestamp := yesterday;
       ChatMessage.status := Some ChatMessage.complete |};
    {| ChatMessage.id := "msg-3-4";
       ChatMessage.from := ChatMessage.user;
       ChatMessage.content :=
         "Compare to last week";
       ChatMessage.timestamp := yesterday - 1000 * 60 * 5;
       ChatMessage.status := Some ChatMessage.complete |};
    {| ChatMessage.id := "msg-3-5";
       ChatMessage.from := ChatMessage.model;
       ChatMessage.content :=
         "Last week your team closed 19 issues, so this week shows a 21% increase in velocity.";
       ChatMessage.timestamp := yesterday - 1000 * 60 * 4;
       ChatMessage.status := Some ChatMessage.complete |} ].

Definition messages_conv_4 : list ChatMessage.t :=
  [ {| ChatMessage.id := "msg-4-1";
       ChatMessage.from := ChatMessage.user;
       ChatMessage.content :=
         "Where is the authentication code located?";
       ChatMessage.timestamp := threeDaysAgo - 1000 * 60 * 15;
       ChatMessage.status := Some ChatMessage.complete |};
    {| ChatMessage.id := "msg-4-2";
       ChatMessage.from := ChatMessage.model;
       ChatMessage.content :=
         "Searching the codebase for authentication-related files...";
       ChatMessage.timestamp := threeDaysAgo - 1000 * 60 * 14;
       ChatMessage.status := Some ChatMessage.complete |};
    {| ChatMessage.id := "msg-4-3";
       ChatMessage.from := ChatMessage.model;
       ChatMessage.content :=
         "The authentication module is located in src/auth/";
       ChatMessage.timestamp := threeDaysAgo;
       ChatMessage.status := Some ChatMessage.complete |} ].

Definition messages_conv_5 : list ChatMessage.t :=
  [ {| ChatMessage.id := "msg-5-1";
       ChatMessage.from := ChatMessage.user;
       ChatMessage.content :=
         "I need to create a new issue";
       ChatMessage.timestamp := lastWeek - 1000 * 60 * 45;
       ChatMessage.status := Some ChatMessage.complete |};
    {| ChatMessage.id := "msg-5-2";
       ChatMessage.from := ChatMessage.model;
       ChatMessage.content :=
         "I can help you create a new issue. What would you like to track?";
       ChatMessage.timestamp := lastWeek;
       ChatMessage.status := Some ChatMessage.complete |};
    {| ChatMessage.id := "msg-5-3";
       ChatMessage.from := ChatMessage.user;
       ChatMessage.content :=
         "A bug in the login flow";
       ChatMessage.timestamp := lastWeek - 1000 * 60 * 40;
       ChatMessage.status := Some ChatMessage.complete |};
    {| ChatMessage.id := "msg-5-4";
       ChatMessage.from := ChatMessage.model;
       ChatMessage.content :=
         "I can create an issue for the login flow bug. Would you like me to:" +:+ Js.nl +:+ Js.nl +:+ "1. Create it now with a default title and description?" +:+ Js.nl +:+ "2. Let you provide more details first?" +:+ Js.nl +:+ Js.nl +:+ "What would you prefer?";
       ChatMessage.timestamp := lastWeek - 1000 * 60 * 39;
       ChatMessage.status := Some ChatMessage.complete |};
    {| ChatMessage.id := "msg-5-5";
       ChatMessage.from := ChatMessage.user;
       ChatMessage.content :=
         "Let me provide more details";
       ChatMessage.timestamp := lastWeek - 1000 * 60 * 35;
       ChatMessage.status := Some ChatMessage.complete |};
    {| ChatMessage.id := "msg-5-6";
       ChatMessage.from := ChatMessage.model;
       ChatMessage.content :=
         "Please provide:" +:+ Js.nl +:+ "- Title for the issue" +:+ Js.nl +:+ "- Description of the bug" +:+ Js.nl +:+ "- Steps to reproduce (if known)" +:+ Js.nl +:+ "- Expected vs actual behavior";
       ChatMessage.timestamp := lastWeek - 1000 * 60 * 34;
       ChatMessage.status := Some ChatMessage.complete |};
    {| ChatMessage.id := "msg-5-7";
       ChatMessage.from := ChatMessage.user;
       ChatMessage.content :=
         "Title: Login fails with OAuth providers" +:+ Js.nl +:+ "Description: Users cannot log in using Google or GitHub OAuth";
       ChatMessage.timestamp := lastWeek - 1000 * 60 * 30;
       ChatMessage.status := Some ChatMessage.complete |} ].

Definition messages_conv_6 : list ChatMessage.t :=
  [ {| ChatMessage.id := "msg-6-1";
       ChatMessage.from := ChatMessage.user;
       ChatMessage.content :=
         "Update all bug labels to use " +:+ Js.dq +:+ "bug" +:+ Js.dq +:+ " instead of " +:+ Js.dq +:+ "Bug" +:+ Js.dq;
       ChatMessage.timestamp := now - 1000 * 60 * 20;
       ChatMessage.status := Some ChatMessage.complete |};
    {| ChatMessage.id := "msg-6-2";
       ChatMessage.from := ChatMessage.model;
       ChatMessage.content :=
         "I'll update the label naming convention for you.";
       ChatMessage.timestamp := now - 1000 * 60 * 19;
       ChatMessage.status := Some ChatMessage.complete |};
    {| ChatMessage.id := "msg-6-3";
       ChatMessage.from := ChatMessage.model;
       ChatMessage.content :=
         "All labels have been updated successfully.";
       ChatMessage.timestamp := now - 1000 * 60 * 15;
       ChatMessage.status := Some ChatMessage.complete |};
    {| ChatMessage.id := "msg-6-4";
       ChatMessage.from := ChatMessage.user;
       ChatMessage.content :=
         "Thanks!";
       ChatMessage.timestamp := now - 1000 * 60 * 14;
       ChatMessage.status := Some ChatMessage.complete |} ].

Definition messages_conv_7 : list ChatMessage.t :=
  [ {| ChatMessage.id := "msg-7-1";
       ChatMessage.from := ChatMessage.user;
       ChatMessage.content :=
         "Review pull request #42";
       ChatMessage.timestamp := now - 1000 * 60 * 50;
       ChatMessage.status := Some ChatMessage.complete |};
    {| ChatMessage.id := "msg-7-2";
       ChatMessage.from := ChatMessage.model;
       ChatMessage.content :=
         "Analyzing pull request #42...";
       ChatMessage.timestamp := now - 1000 * 60 * 49;
       ChatMessage.status := Some ChatMessage.complete |};
    {| ChatMessage.id := "msg-7-3";
       ChatMessage.from := ChatMessage.model;
       ChatMessage.content :=
         "PR #42 Summary:" +:+ Js.nl +:+ "- Title: " +:+ Js.dq +:+ "Add dark mode support" +:+ Js.dq +:+ Js.nl +:+ "- Author: @johndoe" +:+ Js.nl +:+ "- Files changed: 12" +:+ Js.nl +:+ "- Additions: +234 lines" +:+ Js.nl +:+ "- Deletions: -45 lines" +:+ Js.nl +:+ "- Status: Open";
       ChatMessage.timestamp := now - 1000 * 60 * 48;
       ChatMessage.status := Some ChatMessage.complete |};
    {| ChatMessage.id := "msg-7-4";
       ChatMessage.from := ChatMessage.user;
       ChatMessage.content :=
         "What are the main changes?";
       ChatMessage.timestamp := now - 1000 * 60 * 47;
       ChatMessage.status := Some ChatMessage.complete |};
    {| ChatMessage.id := "msg-7-5";
       ChatMessage.from := ChatMessage.model;
       ChatMessage.content :=
         "The main changes include:" +:+ Js.nl +:+ "1. Added dark mode theme configuration" +:+ Js.nl +:+ "2. Updated CSS variables for color schemes" +:+ Js.nl +:+ "3. Added theme toggle component" +:+ Js.nl +:+ "4. Updated all components to support dark mode";
       ChatMessage.timestamp := now - 1000 * 60 * 46;
       ChatMessage.status := Some ChatMessage.complete |};
    {| ChatMessage.id := "msg-7-6";
       ChatMessage.from := ChatMessage.user;
       ChatMessage.content :=
         "Approve it";
       ChatMessage.timestamp := now - 1000 * 60 * 45;
       ChatMessage.status := Some ChatMessage.complete |};
    {| ChatMessage.id := "msg-7-7";
       ChatMessage.from := ChatMessage.model;
       ChatMessage.content :=
         "The PR #42 has been reviewed and approved.";
       ChatMessage.timestamp := now - 1000 * 60 * 45;
       ChatMessage.status := Some ChatMessage.complete |};
    {| ChatMessage.id := "msg-7-8";
       ChatMessage.from := ChatMessage.user;
       ChatMessage.content :=
         "Great!";
       ChatMessage.timestamp := now - 1000 * 60 * 44;
       ChatMessage.status := Some ChatMessage.complete |} ].

Definition mockMessages : gmap string (list ChatMessage.t) :=
  list_to_map
    [ ("conv-1", messages_conv_1);
      ("conv-2", messages_conv_2);
      ("conv-3", messages_conv_3);
      ("conv-4", messages_conv_4);
      ("conv-5", messages_conv_5);
      ("conv-6", messages_conv_6);
      ("conv-7", messages_conv_7) ].
End MockData.

(** [mockMessages] is an object literal, so a property read that finds no own
    key continues in [Object.prototype].  These are its property names; each
    holds a function, or for [__proto__] the prototype object itself: a
    truthy value that is not iterable. *)
Definition Object_prototype_names : list string :=
  [ "constructor"; "__defineGetter__"; "__defineSetter__"; "hasOwnProperty";
    "__lookupGetter__"; "__lookupSetter__"; "isPrototypeOf";
    "propertyIsEnumerable"; "toString"; "valueOf"; "__proto__";
    "toLocaleString" ].

Definition inherited (name : string) : bool :=
  bool_decide (name ∈ Object_prototype_names).

(** ** Page state and the handler monad *)

(** The [$state] variables of [+page.svelte].  [currentConversationId] is
    [string | null]. *)
Record Page := mkPage {
  conversations : list Conversation.t;
  currentConversationId : option string;
  chatContent : list ChatMessage.t;
  isProcessing : bool
}.

(** The page together with its environment: the module constant [now], the
    clock ([clock k] is what the [k]-th reading of the clock returns) and the
    values [Math.random().toString(36).substr(2, 9)] takes, in order. *)
Record World := mkWorld {
  page : Page;
  moduleNow : Z;
  clock : nat -> Z;
  clockReads : nat;
  suffixes : nat -> string;
  suffixReads : nat
}.

Inductive Exn := TypeError.

Inductive Result (A : Type) :=
| Ok (a : A)
| Throw (e : Exn).
Arguments Ok {A} a.
Arguments Throw {A} e.

Definition M (A : Type) : Type := World -> Result A * World.

Definition ret {A} (a : A) : M A := fun w => (Ok a, w).

Definition bind {A B} (c : M A) (k : A -> M B) : M B :=
  fun w =>
    match c w with
    | (Ok a, w') => k a w'
    | (Throw e, w') => (Throw e, w')
    end.

Definition throw {A} (e : Exn) : M A := fun w => (Throw e, w).

Notation "x <- c1 ;; c2" := (bind c1 (fun x => c2))
  (at level 20, c1 at level 99, c2 at level 200, only parsing).
Notation "c1 ;; c2" := (bind c1 (fun _ => c2))
  (at level 100, c2 at level 200, only parsing, right associativity).

Definition getPage : M Page := fun w => (Ok (page w), w).

Definition modifyPage (f : Page -> Page) : M unit :=
  fun w =>
    (Ok tt,
     mkWorld (f (page w)) (moduleNow w) (clock w) (clockReads w)
             (suffixes w) (suffixReads w)).

Definition set_conversations (v : list Conversation.t) : M unit :=
  modifyPage (fun p =>
    mkPage v (currentConversationId p) (chatContent p) (isProcessing p)).

Definition set_currentConversationId (v : option string) : M unit :=
  modifyPage (fun p =>
    mkPage (conversations p) v (chatContent p) (isProcessing p)).

Definition set_chatContent (v : list ChatMessage.t) : M unit :=
  modifyPage (fun p =>
    mkPage (conversations p) (currentConversationId p) v (isProcessing p)).

Definition set_isProcessing (v : bool) : M unit :=
  modifyPage (fun p =>
    mkPage (conversations p) (currentConversationId p) (chatContent p) v).

(** [Date.now()], and the time value of [new Date()]. *)
Definition Date_now : M Z :=
  fun w =>
    (Ok (clock w (clockReads w)),
     mkWorld (page w) (moduleNow w) (clock w) (S (clockReads w))
             (suffixes w) (suffixReads w)).

Definition new_Date : M Z := Date_now.

(** [Math.random().toString(36).substr(2, 9)] *)
Definition random_suffix : M string :=
  fun w =>
    (Ok (suffixes w (suffixReads w)),
     mkWorld (page w) (moduleNow w) (clock w) (clockReads w)
             (suffixes w) (S (suffixReads w))).

Fixpoint mapM {A B} (f : A -> M B) (l : list A) : M (list B) :=
  match l with
  | [] => ret []
  | x :: xs => y <- f x ;; ys <- mapM f xs ;; ret (y :: ys)
  end.

(** ** Id helpers ([conversations.ts]) *)

Definition generateConversationId : M string :=
  t <- Date_now ;;
  ret ("conv-" +:+ Js.Number_toString t).

Definition generateMessageId : M string :=
  t <- Date_now ;;
  r <- random_suffix ;;
  ret ("msg-" +:+ Js.Number_toString t +:+ "-" +:+ r).

(** ** The page controller ([+page.svelte]) *)

(** [scrollToBottom] only schedules a scroll of the DOM container; it reads
    and writes no page variable. *)
Definition scrollToBottom : M unit := ret tt.

(** [const messages = mockMessages[conversationId] || []; chatContent = [...messages]].
    An own key gives its array (truthy even when empty); an inherited name
    gives a value the spread cannot iterate; anything else is [undefined]. *)
Definition loadConversationMessages (conversationId : string) : M unit :=
  w <- (fun w => (Ok w, w)) ;;
  match mockMessages (moduleNow w) !! conversationId with
  | Some messages => set_chatContent messages ;; scrollToBottom
  | None =>
      if inherited conversationId then throw TypeError
      else set_chatContent [] ;; scrollToBottom
  end.

Definition handleSelectConversation (id : string) : M unit :=
  set_currentConversationId (Some id) ;;
  loadConversationMessages id ;;
  set_isProcessing false.

Definition handleCreateNew : M unit :=
  newId <- generateConversationId ;;
  ts <- new_Date ;;
  let newConversation :=
    {| Conversation.id := newId;
       Conversation.title := "New Chat";
       Conversation.lastMessage := EmptyString;
       Conversation.timestamp := ts;
       Conversation.messageCount := 0 |} in
  p <- getPage ;;
  set_conversations (newConversation :: conversations p) ;;
  set_currentConversationId (Some newId) ;;
  set_chatContent [] ;;
  set_isProcessing false.

(** [lastMessage.length > n ? lastMessage.substring(0, n) + '...' : lastMessage] *)
Definition ellipsize (n : nat) (lastMessage : string) : string :=
  if (n <? String.length lastMessage)%nat
  then Js.substring lastMessage 0 n +:+ "..."
  else lastMessage.

(** The callback of [conversations.map].  [conversationId] is the value of
    [currentConversationId] passed by the caller, a string or [null];
    [conv.id === null] holds of no conversation. *)
Definition updateOne (conversationId : option string) (lastMessage : string)
    (conv : Conversation.t) : M Conversation.t :=
  if bool_decide (Some (Conversation.id conv) = conversationId) then
    ts <- new_Date ;;
    p <- getPage ;;
    ret {| Conversation.id := Conversation.id conv;
           Conversation.lastMessage := ellipsize 60 lastMessage;
           Conversation.timestamp := ts;
           Conversation.messageCount := Conversation.messageCount conv + 1;
           Conversation.title :=
             if bool_decide (Conversation.title conv = "New Chat")
                && bool_decide (length (chatContent p) = 1%nat)
             then ellipsize 30 lastMessage
             else Conversation.title conv |}
  else ret conv.

Definition updateConversationMetadata (conversationId : option string)
    (lastMessage : string) : M unit :=
  p <- getPage ;;
  convs <- mapM (updateOne conversationId lastMessage) (conversations p) ;;
  set_conversations convs.

(** [!currentConversationId]: [null] and the empty string are falsy. *)
Definition noConversationSelected (p : Page) : bool :=
  match currentConversationId p with
  | None => true
  | Some id => negb (Js.truthy id)
  end.

(** What the continuation of [handleSendMessage] keeps of its frame: the
    parameter [content] is the only local read after the [await]. *)
Record Pending := mkPending { pending_content : string }.

(** [handleSendMessage] up to its [await]; [None] is the early [return]. *)
Definition handleSendMessage (content : string) : M (option Pending) :=
  p <- getPage ;;
  if noConversationSelected p || negb (Js.truthy (Js.trim content)) then ret None
  else
    mid <- generateMessageId ;;
    ts <- new_Date ;;
    let userMessage :=
      {| ChatMessage.id := mid;
         ChatMessage.from := ChatMessage.user;
         ChatMessage.content := Js.trim content;
         ChatMessage.timestamp := ts;
         ChatMessage.status := Some ChatMessage.complete |} in
    p <- getPage ;;
    set_chatContent (chatContent p ++ [userMessage]) ;;
    set_isProcessing true ;;
    scrollToBottom ;;
    p <- getPage ;;
    updateConversationMetadata (currentConversationId p) (Js.trim content) ;;
    ret (Some (mkPending content)).

(** [handleSendMessage] after its [await], run when the timer fires. *)
Definition handleSendMessage_resume (k : Pending) : M unit :=
  mid <- generateMessageId ;;
  let reply := generateMockResponse (pending_content k) in
  ts <- new_Date ;;
  let modelResponse :=
    {| ChatMessage.id := mid;
       ChatMessage.from := ChatMessage.model;
       ChatMessage.content := reply;
       ChatMessage.timestamp := ts;
       ChatMessage.status := Some ChatMessage.complete |} in
  p <- getPage ;;
  set_chatContent (chatContent p ++ [modelResponse]) ;;
  set_isProcessing false ;;
  scrollToBottom ;;
  p <- getPage ;;
  updateConversationMetadata (currentConversationId p)
                             (ChatMessage.content modelResponse).

(** The mount effect: select the first conversation while none is. *)
Definition autoSelectEffect : M unit :=
  p <- getPage ;;
  match conversations p, currentConversationId p with
  | conv :: _, None =>
      set_currentConversationId (Some (Conversation.id conv)) ;;
      p <- getPage ;;
      match currentConversationId p with
      | Some id => loadConversationMessages id
      | None => ret tt
      end
  | _, _ => ret tt
  end.

(** ** The event loop *)

(** One user intent or timer expiry.  [TimerFires n] resumes the [n]-th
    pending continuation: the delays are random, so any pending one may be
    the next to fire. *)
Inductive Event :=
| SelectConversation (id : string)
| CreateNew
| SendMessage (content : string)
| TimerFires (n : nat).

(** [timers] holds the continuations waiting for their timer.  [history] is
    a ghost log: every message appended to [chatContent], with the value
    [currentConversationId] had when it was appended. *)
Record System := mkSystem {
  world : World;
  timers : list Pending;
  history : list (option string * ChatMessage.t)
}.

(** Effects re-run after a handler when what they read has changed; the
    effect does nothing unless [currentConversationId] is [null]. *)
Definition settle (w : World) : World := snd (autoSelectEffect w).

(** The messages a handler appended to [chatContent]. *)
Definition appended (before after : World) : list (option string * ChatMessage.t) :=
  map (fun m => (currentConversationId (page after), m))
      (drop (length (chatContent (page before))) (chatContent (page after))).

(** An exception escaping a handler is reported by the browser; the
    variables keep what was written before it was thrown. *)
Definition step (e : Event) (s : System) : System :=
  match e with
  | SelectConversation id =>
      mkSystem (settle (snd (handleSelectConversation id (world s))))
               (timers s) (history s)
  | CreateNew =>
      mkSystem (settle (snd (handleCreateNew (world s))))
               (timers s) (history s)
  | SendMessage content =>
      let (r, w') := handleSendMessage content (world s) in
      mkSystem (settle w')
               (timers s ++ match r with Ok (Some k) => [k] | _ => [] end)
               (history s ++ appended (world s) w')
  | TimerFires n =>
      match timers s !! n with
      | Some k =>
          let w' := snd (handleSendMessage_resume k (world s)) in
          mkSystem (settle w') (delete n (timers s))
                   (history s ++ appended (world s) w')
      | None => s
      end
  end.

Definition exec (evs : list Event) (s : System) : System :=
  fold_left (fun s e => step e s) evs s.

(** The module is loaded (first reading of the clock), the page variables
    are initialised and the mount effect runs. *)
Definition initialWorld (clock : nat -> Z) (suffixes : nat -> string) : World :=
  let now := clock 0%nat in
  mkWorld (mkPage (mockConversations now) None [] false)
          now clock 1 suffixes 0.

Definition boot (clock : nat -> Z) (suffixes : nat -> string) : System :=
  mkSystem (settle (initialWorld clock suffixes)) [] [].

Definition conversationIds (s : System) : list string :=
  map Conversation.id (conversations (page (world s))).

(** What the views can emit.  The sidebar ([Sidebar.svelte]) has one button
    per listed conversation; the input box ([Input.svelte], [handleSend])
    is disabled while [isProcessing] and passes on the trimmed text when it
    is not empty; a timer fires only if it is pending. *)
Definition offered (s : System) (e : Event) : bool :=
  match e with
  | SelectConversation id => bool_decide (id ∈ conversationIds s)
  | CreateNew => true
  | SendMessage content =>
      negb (isProcessing (page (world s)))
      && bool_decide (Js.trim content = content) && Js.truthy content
  | TimerFires n => bool_decide (n < length (timers s))%nat
  end.

Fixpoint feasible (evs : list Event) (s : System) : bool :=
  match evs with
  | [] => true
  | e :: evs' => offered s e && feasible evs' (step e s)
  end.

(** Every selection in the run names a conversation listed at that time. *)
Fixpoint selectionsListed (evs : list Event) (s : System) : Prop :=
  match evs with
  | [] => True
  | e :: evs' =>
      match e with
      | SelectConversation id => id ∈ conversationIds s
      | _ => True
      end /\ selectionsListed evs' (step e s)
  end.

(** The [k]-th conversation in order of creation: the list only grows at
    its front, so this index does not move. *)
Definition conversationAt (s : System) (k : nat) : option Conversation.t :=
  reverse (conversations (page (world s))) !! k.

Definition listed (s : System) : list Conversation.t :=
  conversations (page (world s)).

Definition selected (s : System) : option string :=
  currentConversationId (page (world s)).

Definition thread (s : System) : list ChatMessage.t :=
  chatContent (page (world s)).

Definition ticking (start : Z) : nat -> Z := fun k => start + Z.of_nat k.
Definition frozen (t : Z) : nat -> Z := fun _ => t.
Definition sameSuffix (r : string) : nat -> string := fun _ => r.

(** ** The classifier as the specification words it *)

(** [k] occurs in [s]. *)
Definition Contains (s k : string) : Prop :=
  exists pre post, s = pre +:+ k +:+ post.

(** Case-insensitive keyword matching: some keyword occurs in the
    lower-cased text. *)
Definition mentions (userText : string) (keywords : list string) : Prop :=
  Exists (Contains (Js.toLowerCase userText)) keywords.

Definition issueWords : list string := ["issue"; "bug"].
Definition statWords : list string := ["stat"; "metric"; "velocity"].
Definition pullRequestWords : list string := ["pull request"; "pr"].
Definition labelWords : list string := ["label"].

(** Rules 1 to 5 in their priority order: a rule applies when its keywords
    match and those of no earlier rule do. *)
Inductive classify (userText : string) : string -> Prop :=
| classify_issues :
    mentions userText issueWords ->
    classify userText issuesReply
| classify_statistics :
    ~ mentions userText issueWords ->
    mentions userText statWords ->
    classify userText statsReply
| classify_pullRequests :
    ~ mentions userText issueWords ->
    ~ mentions userText statWords ->
    mentions userText pullRequestWords ->
    classify userText pullRequestsReply
| classify_labels :
    ~ mentions userText issueWords ->
    ~ mentions userText statWords ->
    ~ mentions userText pullRequestWords ->
    mentions userText labelWords ->
    classify userText labelsReply
| classify_fallback :
    ~ mentions userText issueWords ->
    ~ mentions userText statWords ->
    ~ mentions userText pullRequestWords ->
    ~ mentions userText labelWords ->
    classify userText (fallbackPrefix +:+ userText +:+ fallbackSuffix).

(** ** What a metadata update computes *)

(** The object the [map] callback returns for a conversation it matches, as
    a function of the message, of [chatContent.length] and of the clock. *)
Definition refresh (lastMessage : string) (threadLength : nat) (ts : Z)
    (conv : Conversation.t) : Conversation.t :=
  {| Conversation.id := Conversation.id conv;
     Conversation.title :=
       if bool_decide (Conversation.title conv = "New Chat")
          && bool_decide (threadLength = 1%nat)
       then ellipsize 30 lastMessage
       else Conversation.title conv;
     Conversation.lastMessage := ellipsize 60 lastMessage;
     Conversation.timestamp := ts;
     Conversation.messageCount := Conversation.messageCount conv + 1 |}.

Definition matched (conversationId : option string) (conv : Conversation.t) : bool :=
  bool_decide (Some (Conversation.id conv) = conversationId).

(** The list [conversations.map] builds; [reads] counts the clock readings
    taken so far, one more for each matched conversation. *)
Fixpoint refreshAll (conversationId : option string) (lastMessage : string)
    (threadLength : nat) (clock : nat -> Z) (reads : nat)
    (convs : list Conversation.t) : list Conversation.t :=
  match convs with
  | [] => []
  | conv :: rest =>
      if matched conversationId conv
      then refresh lastMessage threadLength (clock reads) conv
           :: refreshAll conversationId lastMessage threadLength clock (S reads) rest
      else conv
           :: refreshAll conversationId lastMessage threadLength clock reads rest
  end.

Fixpoint matches (conversationId : option string)
    (convs : list Conversation.t) : nat :=
  match convs with
  | [] => 0
  | conv :: rest =>
      (if matched conversationId conv then 1 else 0) + matches conversationId rest
  end.

(** The world after [n] more readings of the clock. *)
Definition later (n : nat) (w : World) : World :=
  mkWorld (page w) (moduleNow w) (clock w) (n + clockReads w)
          (suffixes w) (suffixReads w).

Definition withPage (p : Page) (w : World) : World :=
  mkWorld p (moduleNow w) (clock w) (clockReads w) (suffixes w) (suffixReads w).

(** The message objects the two halves of [handleSendMessage] build in a
    world [w]: one reading of the clock and one random suffix for the id,
    a second reading for the timestamp. *)
Definition messageIn (w : World) (sender : ChatMessage.Sender)
    (text : string) : ChatMessage.t :=
  {| ChatMessage.id :=
       "msg-" +:+ Js.Number_toString (clock w (clockReads w)) +:+ "-"
       +:+ suffixes w (suffixReads w);
     ChatMessage.from := sender;
     ChatMessage.content := text;
     ChatMessage.timestamp := clock w (S (clockReads w));
     ChatMessage.status := Some ChatMessage.complete |}.

(** The world once a message has been appended and the metadata of the
    selected conversation updated with [text]. *)
Definition posted (w : World) (message : ChatMessage.t) (text : string)
    (processing : bool) : World :=
  let p := page w in
  let thread := (chatContent p ++ [message])%list in
  mkWorld
    (mkPage (refreshAll (currentConversationId p) text (length thread)
                        (clock w) (2 + clockReads w) (conversations p))
            (currentConversationId p) thread processing)
    (moduleNow w) (clock w)
    (matches (currentConversationId p) (conversations p) + (2 + clockReads w))
    (suffixes w) (S (suffixReads w)).

(** The guard of [handleSendMessage]. *)
Definition sendable (content : string) (w : World) : bool :=
  negb (noConversationSelected (page w)) && Js.truthy (Js.trim content).

(** The conversation [handleCreateNew] builds in a world [w]. *)
Definition newConversationIn (w : World) : Conversation.t :=
  {| Conversation.id := "conv-" +:+ Js.Number_toString (clock w (clockReads w));
     Conversation.title := "New Chat";
     Conversation.lastMessage := EmptyString;
     Conversation.timestamp := clock w (S (clockReads w));
     Conversation.messageCount := 0 |}.

(** What [[...(mockMessages[id] || [])]] evaluates to. *)
Definition storedThread (now : Z) (id : string) : Result (list ChatMessage.t) :=
  match mockMessages now !! id with
  | Some messages => Ok messages
  | None => if inherited id then Throw TypeError else Ok []
  end.

(** ** Counting messages *)

(** The messages [mockMessages] holds for [id] when the page starts. *)
Definition seeded (now : Z) (id : string) : nat :=
  length (default [] (mockMessages now !! id)).

(** The messages the log records as appended while [id] was selected. *)
Fixpoint appendedTo (id : string)
    (log : list (option string * ChatMessage.t)) : nat :=
  match log with
  | [] => 0
  | (k, _) :: rest =>
      (if bool_decide (k = Some id) then 1 else 0) + appendedTo id rest
  end.

(** [messageCount] agrees with the log, and every id the page or the log
    mentions is the id of a listed conversation. *)
Definition consistent (s : System) : Prop :=
  (forall conv,
      conv ∈ listed s ->
      Conversation.messageCount conv
      = Z.of_nat (seeded (moduleNow (world s)) (Conversation.id conv)
                  + appendedTo (Conversation.id conv) (history s)))
  /\ (forall x, selected s = Some x -> x ∈ conversationIds s)
  /\ (forall x, (0 < appendedTo x (history s))%nat -> x ∈ conversationIds s)
  /\ (forall x, (0 < seeded (moduleNow (world s)) x)%nat -> x ∈ conversationIds s).

(** ** What a step does to one conversation *)

(** [conv'] is what the step [e] taken in [s] makes of the listed
    conversation [conv]: the handlers rewrite a conversation only through
    [updateConversationMetadata], called with the selection of the moment. *)
Definition successor (s : System) (e : Event)
    (conv conv' : Conversation.t) : Prop :=
  match e with
  | SendMessage content =>
      if sendable content (world s) && matched (selected s) conv
      then exists ts,
             conv' = refresh (Js.trim content) (S (length (thread s))) ts conv
      else conv' = conv
  | TimerFires n =>
      match timers s !! n with
      | Some k =>
          if matched (selected s) conv
          then exists ts,
                 conv' = refresh (generateMockResponse (pending_content k))
                                 (S (length (thread s))) ts conv
          else conv' = conv
      | None => conv' = conv
      end
  | SelectConversation _ | CreateNew => conv' = conv
  end.

(** A send followed by the firing of its own timer, nothing in between. *)
Definition exchange (content : string) (s : System) : System :=
  exec [SendMessage content; TimerFires (length (timers s))] s.

(** The text of the message a step appends to the thread, if it appends
    one: the trimmed text of an accepted send, the reply of a fired timer. *)
Definition appendedText (e : Event) (s : System) : option string :=
  match e with
  | SendMessage content =>
      if sendable content (world s) then Some (Js.trim content) else None
  | TimerFires n =>
      match timers s !! n with
      | Some k => Some (generateMockResponse (pending_content k))
      | None => None
      end
  | SelectConversation _ | CreateNew => None
  end.

(** The title rule as first stated: a title only ever changes on the first
    message of its conversation, that is, while its [messageCount] is 0. *)
Definition titleChangesOnFirstMessageOnly : Prop :=
  forall clk sfx evs e k conv conv',
    feasible (evs ++ [e]) (boot clk sfx) = true ->
    conversationAt (exec evs (boot clk sfx)) k = Some conv ->
    conversationAt (exec (evs ++ [e]) (boot clk sfx)) k = Some conv' ->
    Conversation.title conv' <> Conversation.title conv ->
    Conversation.messageCount conv = 0.

(** Selection of an unlisted id as first stated: it ends with no exception,
    an empty thread and no conversation selected.  "No conversation is
    selected" is [noConversationSelected], the condition under which
    [handleSendMessage] returns at once. *)
Definition selectingUnlistedIdSelectsNothing : Prop :=
  forall clk sfx evs id,
    id ∉ conversationIds (exec evs (boot clk sfx)) ->
    exists w',
      handleSelectConversation id (world (exec evs (boot clk sfx))) = (Ok tt, w')
      /\ noConversationSelected (page w') = true
      /\ chatContent (page w') = [].

(** ** The text box ([routes/Input.svelte]) *)

Module ChatInput.

(** The bound element is represented by its [innerText]; [None] is the
    variable [inputElement] before the element is bound. *)
Record KeyboardEvent := mkKey { key : string; shiftKey : bool }.

(** [handleSend]: the new [innerText] and the argument passed to
    [onSendMessage], if it is called.  [isDisabled] is derived from the
    property [isProcessing]. *)
Definition handleSend (isProcessing : bool) (inputElement : option string)
    : option string * option string :=
  let isDisabled := isProcessing in
  match inputElement with
  | None => (inputElement, None)
  | Some innerText =>
      if isDisabled then (inputElement, None)
      else
        let content := Js.trim innerText in
        if negb (Js.truthy content) then (inputElement, None)
        else (Some EmptyString, Some content)
  end.

(** [handleKeyDown]: whether [preventDefault] was called, then what
    [handleSend] did. *)
Definition handleKeyDown (event : KeyboardEvent) (isProcessing : bool)
    (inputElement : option string) : bool * (option string * option string) :=
  if bool_decide (key event = "Enter") && negb (shiftKey event)
  then (true, handleSend isProcessing inputElement)
  else (false, (inputElement, None)).

End ChatInput.

(** A submission from the text box, on the page: [+page.svelte] passes
    [handleSendMessage] as [onSendMessage] and its [isProcessing] as the
    property of the same name. *)
Definition submit (inputElement : option string) (s : System)
    : option string * System :=
  match ChatInput.handleSend (isProcessing (page (world s))) inputElement with
  | (box, Some content) => (box, step (SendMessage content) s)
  | (box, None) => (box, s)
  end.

(** ** The form field ([lib/components/Input.svelte]) *)

Module FormInput.

Inductive InputType :=
| text | password | email | number | tel | url | search
| date | time | datetime_local | month | week.

Definition isPassword (type : InputType) : bool :=
  match type with
  | password => true
  | _ => false
  end.

(** [$derived(type === 'password' && showPassword ? 'text' : type)] *)
Definition inputType (type : InputType) (showPassword : bool) : InputType :=
  if isPassword type && showPassword then text else type.

Definition togglePassword (showPassword : bool) : bool := negb showPassword.

(** The toggle button is rendered for a password field only; a click on it
    calls [togglePassword].  [clicks] activations of what is rendered,
    starting from [showPassword = false]. *)
Fixpoint afterClicks (type : InputType) (clicks : nat) : bool :=
  match clicks with
  | O => false
  | S n =>
      if isPassword type then togglePassword (afterClicks type n)
      else afterClicks type n
  end.

(** The right icon is rendered when given and the field is no password. *)
Definition showsRightIcon (type : InputType) (rightIcon : option string) : bool :=
  match rightIcon with
  | Some icon => Js.truthy icon && negb (isPassword type)
  | None => false
  end.

End FormInput.

(** ** Relative time stamps ([conversations.ts], [formatTimestamp]) *)

Section FormatTimestamp.

(** [date.toLocaleDateString()] depends on the locale of the browser. *)
Variable toLocaleDateString : Z -> string.

(** [Math.floor(diffMs / n)] is the floor quotient. *)
Definition formatTimestamp (date : Z) : M string :=
  now <- new_Date ;;
  let diffMs := now - date in
  let diffMins := diffMs / 60000 in
  let diffHours := diffMs / 3600000 in
  let diffDays := diffMs / 86400000 in
  if (diffMins <? 1)%Z then ret "Just now"
  else if (diffMins <? 60)%Z then ret (Js.Number_toString diffMins +:+ "m ago")
  else if (diffHours <? 24)%Z then ret (Js.Number_toString diffHours +:+ "h ago")
  else if (diffDays <? 7)%Z then ret (Js.Number_toString diffDays +:+ "d ago")
  else ret (toLocaleDateString date).

End FormatTimestamp.

(** A string that does not start with white space. *)
Definition headKept (s : string) : Prop :=
  match s with
  | EmptyString => True
  | String c _ => Js.isWhiteSpace c = false
  end.

(** A message whose [status] is ['complete']. *)
Definition isComplete (message : ChatMessage.t) : Prop :=
  ChatMessage.status message = Some ChatMessage.complete.

(** A string of decimal digits. *)
Definition isDigit (c : ascii) : bool :=
  let n := nat_of_ascii c in ((48 <=? n) && (n <=? 57))%nat.

Fixpoint digitsOnly (s : string) : bool :=
  match s with
  | EmptyString => true
  | String c s' => isDigit c && digitsOnly s'
  end.


(** ** Classes of events *)


(** Events that leave the selection alone: sends and timers. *)
Definition keepsSelection (e : Event) : bool :=
  match e with
  | SendMessage _ | TimerFires _ => true
  | SelectConversation _ | CreateNew => false
  end.

(** * Properties *)

(** ** Strings *)

Lemma append_nil_l (b : string) : EmptyString +:+ b = b.
Proof. reflexivity. Qed.

Lemma append_cons (c : ascii) (a b : string) :
  String c a +:+ b = String c (a +:+ b).
Proof. reflexivity. Qed.

Ltac unappend := rewrite ?append_cons, ?append_nil_l in *.

Lemma append_assoc (a b c : string) : (a +:+ b) +:+ c = a +:+ (b +:+ c).
Proof. induction a as [|x a IH]; unappend; [reflexivity | now rewrite IH]. Qed.

Lemma append_empty_r (a : string) : a +:+ EmptyString = a.
Proof. induction a as [|x a IH]; unappend; [reflexivity | now rewrite IH]. Qed.

Lemma length_append (a b : string) :
  String.length (a +:+ b) = (String.length a + String.length b)%nat.
Proof.
  induction a as [|x a IH]; unappend; simpl; [reflexivity | now rewrite IH].
Qed.

Lemma prefix_true_iff (k s : string) :
  String.prefix k s = true <-> exists post, s = k +:+ post.
Proof.
  revert s. induction k as [|x k IH]; intros s.
  - split; [intros _; now exists s | intros _; now destruct s].
  - destruct s as [|y s]; simpl.
    + split; [discriminate | intros [post H]; discriminate].
    + destruct (Ascii.ascii_dec x y) as [->|Hne].
      * rewrite IH. split; intros [post H]; exists post; unappend; congruence.
      * split; [discriminate | intros [post H]; unappend; congruence].
Qed.

Lemma includes_unfold (s k : string) :
  Js.includes s k
  = String.prefix k s
    || match s with
       | EmptyString => false
       | String _ s' => Js.includes s' k
       end.
Proof. destruct s; reflexivity. Qed.

Lemma includes_true_iff (s k : string) :
  Js.includes s k = true <-> Contains s k.
Proof.
  split.
  - induction s as [|c s IH]; rewrite includes_unfold, orb_true_iff.
    + intros [H|H]; [|discriminate].
      apply prefix_true_iff in H as [post ->].
      now exists EmptyString, post.
    + intros [H|H].
      * apply prefix_true_iff in H as [post ->].
        now exists EmptyString, post.
      * destruct (IH H) as (pre & post & ->).
        now exists (String c pre), post.
  - intros (pre & post & ->).
    induction pre as [|c pre IH]; unappend; rewrite includes_unfold.
    + assert (String.prefix k (k +:+ post) = true) as Hp
        by (apply prefix_true_iff; now exists post).
      now rewrite Hp.
    + rewrite IH. apply orb_true_r.
Qed.

Lemma mentions_existsb (userText : string) (keywords : list string) :
  mentions userText keywords
  <-> existsb (Js.includes (Js.toLowerCase userText)) keywords = true.
Proof.
  unfold mentions. induction keywords as [|k ks IH]; simpl.
  - rewrite Exists_nil. split; [tauto | discriminate].
  - rewrite Exists_cons, orb_true_iff, IH, includes_true_iff. tauto.
Qed.

(** ** C1: the response classifier *)

Lemma generateMockResponse_classify (userText : string) :
  classify userText (generateMockResponse userText).
Proof.
  unfold generateMockResponse.
  destruct (existsb (Js.includes (Js.toLowerCase userText)) issueWords) eqn:H1;
  [|destruct (existsb (Js.includes (Js.toLowerCase userText)) statWords) eqn:H2;
    [|destruct (existsb (Js.includes (Js.toLowerCase userText)) pullRequestWords) eqn:H3;
      [|destruct (existsb (Js.includes (Js.toLowerCase userText)) labelWords) eqn:H4]]].
  all: pose proof H1 as G1; simpl in G1; rewrite ?orb_false_r in G1; rewrite G1.
  all: try (pose proof H2 as G2; simpl in G2; rewrite ?orb_false_r, <- ?orb_assoc in G2;
            rewrite ?orb_assoc in G2; rewrite G2).
  all: try (pose proof H3 as G3; simpl in G3; rewrite ?orb_false_r in G3; rewrite G3).
  all: try (pose proof H4 as G4; simpl in G4; rewrite ?orb_false_r in G4; rewrite G4).
  all: repeat match goal with
         | H : existsb _ _ = true |- _ => apply mentions_existsb in H
         | H : existsb _ _ = false |- _ =>
             apply not_true_iff_false in H; rewrite <- mentions_existsb in H
         end.
  - now apply classify_issues.
  - now apply classify_statistics.
  - now apply classify_pullRequests.
  - now apply classify_labels.
  - now apply classify_fallback.
Qed.

Lemma classify_functional (userText r1 r2 : string) :
  classify userText r1 -> classify userText r2 -> r1 = r2.
Proof.
  intros H1 H2. destruct H1; destruct H2; try reflexivity; contradiction.
Qed.

(** C1. [generateMockResponse] is a function of its argument alone and
    realises the rules of the specification in their priority order: a reply
    is the one the rules prescribe exactly when it is the one computed; the
    fallback embeds the text unchanged; and "bug in my pull request", which
    also matches rule 3, gets the issues menu of rule 1. *)
Theorem C1_classifier_rules_in_priority_order :
  (forall userText reply,
      classify userText reply <-> generateMockResponse userText = reply)
  /\ (forall userText,
        ~ mentions userText (issueWords ++ statWords ++ pullRequestWords ++ labelWords) ->
        generateMockResponse userText
        = fallbackPrefix +:+ userText +:+ fallbackSuffix)
  /\ mentions "bug in my pull request" pullRequestWords
  /\ generateMockResponse "bug in my pull request" = issuesReply
  /\ issuesReply <> pullRequestsReply.
Proof.
  split; [|split; [|split; [|split]]].
  - intros userText reply. split.
    + intros H. eapply classify_functional; [apply generateMockResponse_classify | exact H].
    + intros <-. apply generateMockResponse_classify.
  - intros userText Hno.
    pose proof (generateMockResponse_classify userText) as Hc.
    unfold mentions in Hno. rewrite !Exists_app in Hno.
    inversion Hc as [H|? H|? ? H|? ? ? H|]; try reflexivity;
      exfalso; apply Hno; unfold mentions in *; tauto.
  - apply mentions_existsb. reflexivity.
  - reflexivity.
  - discriminate.
Qed.

(** ** The handlers in closed form *)

Lemma later_0 (w : World) : later 0 w = w.
Proof. now destruct w. Qed.

Lemma mapM_updateOne (conversationId : option string) (lastMessage : string)
    (convs : list Conversation.t) (w : World) :
  mapM (updateOne conversationId lastMessage) convs w
  = (Ok (refreshAll conversationId lastMessage (length (chatContent (page w)))
                    (clock w) (clockReads w) convs),
     later (matches conversationId convs) w).
Proof.
  revert w. induction convs as [|conv rest IH]; intros w.
  - cbn. now rewrite later_0.
  - cbn [mapM refreshAll matches]. unfold bind at 1.
    unfold updateOne. fold (matched conversationId conv).
    destruct (matched conversationId conv).
    + cbn. unfold bind at 1. rewrite IH. cbn.
      f_equal. unfold later. cbn. f_equal. lia.
    + cbn. unfold bind at 1. rewrite IH. reflexivity.
Qed.

Lemma updateConversationMetadata_run (conversationId : option string)
    (lastMessage : string) (w : World) :
  updateConversationMetadata conversationId lastMessage w
  = (Ok tt,
     withPage
       (mkPage (refreshAll conversationId lastMessage
                           (length (chatContent (page w)))
                           (clock w) (clockReads w) (conversations (page w)))
               (currentConversationId (page w)) (chatContent (page w))
               (isProcessing (page w)))
       (later (matches conversationId (conversations (page w))) w)).
Proof.
  unfold updateConversationMetadata, bind, getPage.
  rewrite mapM_updateOne. reflexivity.
Qed.

Lemma handleSendMessage_rejected (content : string) (w : World) :
  sendable content w = false ->
  handleSendMessage content w = (Ok None, w).
Proof.
  unfold sendable, handleSendMessage, bind, getPage. intros H.
  destruct (noConversationSelected (page w)); [reflexivity|].
  cbn in H. rewrite H. reflexivity.
Qed.

Lemma handleSendMessage_accepted (content : string) (w : World) :
  sendable content w = true ->
  handleSendMessage content w
  = (Ok (Some (mkPending content)),
     posted w (messageIn w ChatMessage.user (Js.trim content))
            (Js.trim content) true).
Proof.
  unfold sendable, handleSendMessage. intros H.
  apply andb_true_iff in H as [H1 H2].
  apply negb_true_iff in H1.
  unfold bind at 1. unfold getPage at 1. rewrite H1, H2. cbn [orb negb].
  unfold bind, generateMessageId, bind, Date_now, random_suffix, new_Date,
    Date_now, ret, getPage, set_chatContent, set_isProcessing, modifyPage,
    scrollToBottom.
  cbn -[updateConversationMetadata].
  rewrite updateConversationMetadata_run.
  unfold posted, withPage, later, messageIn. cbn.
  rewrite length_app. cbn. repeat f_equal; lia.
Qed.

Lemma handleSendMessage_resume_run (k : Pending) (w : World) :
  handleSendMessage_resume k w
  = (Ok tt,
     posted w (messageIn w ChatMessage.model
                         (generateMockResponse (pending_content k)))
            (generateMockResponse (pending_content k)) false).
Proof.
  unfold handleSendMessage_resume.
  unfold bind, generateMessageId, bind, Date_now, random_suffix, new_Date,
    Date_now, ret, getPage, set_chatContent, set_isProcessing, modifyPage,
    scrollToBottom.
  cbn -[updateConversationMetadata].
  rewrite updateConversationMetadata_run.
  unfold posted, withPage, later, messageIn. cbn.
  rewrite length_app. cbn. repeat f_equal; lia.
Qed.

Lemma handleCreateNew_run (w : World) :
  handleCreateNew w
  = (Ok tt,
     mkWorld (mkPage (newConversationIn w :: conversations (page w))
                     (Some (Conversation.id (newConversationIn w))) [] false)
             (moduleNow w) (clock w) (2 + clockReads w)
             (suffixes w) (suffixReads w)).
Proof. reflexivity. Qed.

Lemma loadConversationMessages_run (id : string) (w : World) :
  loadConversationMessages id w
  = match storedThread (moduleNow w) id with
    | Ok messages =>
        (Ok tt,
         withPage (mkPage (conversations (page w)) (currentConversationId (page w))
                          messages (isProcessing (page w))) w)
    | Throw e => (Throw e, w)
    end.
Proof.
  unfold loadConversationMessages, storedThread, bind.
  destruct (mockMessages (moduleNow w) !! id); [reflexivity|].
  destruct (inherited id); reflexivity.
Qed.

Lemma handleSelectConversation_run (id : string) (w : World) :
  handleSelectConversation id w
  = match storedThread (moduleNow w) id with
    | Ok messages =>
        (Ok tt,
         withPage (mkPage (conversations (page w)) (Some id) messages false) w)
    | Throw e =>
        (Throw e,
         withPage (mkPage (conversations (page w)) (Some id)
                          (chatContent (page w)) (isProcessing (page w))) w)
    end.
Proof.
  unfold handleSelectConversation.
  unfold bind at 1. unfold set_currentConversationId, modifyPage.
  unfold bind at 1. rewrite loadConversationMessages_run. cbn [moduleNow].
  destruct (storedThread (moduleNow w) id); reflexivity.
Qed.

(** The effect leaves a world with a selection as it is; otherwise it only
    writes [currentConversationId] and [chatContent]. *)
Lemma settle_selected (w : World) :
  currentConversationId (page w) <> None -> settle w = w.
Proof.
  unfold settle, autoSelectEffect, bind, getPage. intros H.
  destruct (conversations (page w)); [reflexivity|].
  destruct (currentConversationId (page w)); [reflexivity | contradiction].
Qed.

Lemma settle_frame (w : World) :
  conversations (page (settle w)) = conversations (page w)
  /\ isProcessing (page (settle w)) = isProcessing (page w)
  /\ moduleNow (settle w) = moduleNow w
  /\ clock (settle w) = clock w
  /\ clockReads (settle w) = clockReads w
  /\ suffixes (settle w) = suffixes w
  /\ suffixReads (settle w) = suffixReads w.
Proof.
  unfold settle, autoSelectEffect, bind, getPage.
  destruct (conversations (page w)) as [|conv rest] eqn:Hc;
    [cbn; rewrite ?Hc; tauto|].
  destruct (currentConversationId (page w)) eqn:Hs;
    [cbn; rewrite ?Hc; tauto|].
  unfold set_currentConversationId, modifyPage.
  cbn [fst snd page currentConversationId].
  rewrite loadConversationMessages_run. cbn [moduleNow].
  destruct (storedThread (moduleNow w) (Conversation.id conv));
    cbn; rewrite ?Hc; tauto.
Qed.

Lemma settle_selection (w : World) :
  currentConversationId (page (settle w)) = currentConversationId (page w)
  \/ exists conv rest,
       conversations (page w) = conv :: rest
       /\ currentConversationId (page (settle w)) = Some (Conversation.id conv).
Proof.
  unfold settle, autoSelectEffect, bind, getPage.
  destruct (conversations (page w)) as [|conv rest] eqn:Hc; [now left|].
  destruct (currentConversationId (page w)) eqn:Hs; [now left|].
  right. exists conv, rest. split; [reflexivity|].
  unfold set_currentConversationId, modifyPage.
  cbn [fst snd page currentConversationId].
  rewrite loadConversationMessages_run. cbn [moduleNow].
  destruct (storedThread (moduleNow w) (Conversation.id conv)); reflexivity.
Qed.

(** ** Metadata updates ([updateConversationMetadata]) *)

Lemma refreshAll_length cid msg n clk reads (convs : list Conversation.t) :
  length (refreshAll cid msg n clk reads convs) = length convs.
Proof.
  revert reads. induction convs as [|conv rest IH]; intros reads; cbn;
    [reflexivity|].
  destruct (matched cid conv); cbn; now rewrite IH.
Qed.

Lemma refreshAll_lookup cid msg n clk reads (convs : list Conversation.t)
    (i : nat) (conv : Conversation.t) :
  convs !! i = Some conv ->
  exists ts,
    refreshAll cid msg n clk reads convs !! i
    = Some (if matched cid conv then refresh msg n ts conv else conv).
Proof.
  revert reads i. induction convs as [|c rest IH]; intros reads i H;
    [discriminate|].
  destruct i as [|i]; cbn in *.
  - injection H as ->. exists (clk reads). now destruct (matched cid conv).
  - destruct (matched cid c); cbn; now apply IH.
Qed.

Lemma refreshAll_ids cid msg n clk reads (convs : list Conversation.t) :
  map Conversation.id (refreshAll cid msg n clk reads convs)
  = map Conversation.id convs.
Proof.
  revert reads. induction convs as [|conv rest IH]; intros reads; cbn;
    [reflexivity|].
  destruct (matched cid conv); cbn; now rewrite IH.
Qed.

Lemma refreshAll_unmatched cid msg n clk reads (convs : list Conversation.t) :
  matches cid convs = 0%nat ->
  refreshAll cid msg n clk reads convs = convs.
Proof.
  induction convs as [|conv rest IH]; cbn; [reflexivity|].
  destruct (matched cid conv); [discriminate|].
  intros H. now rewrite IH.
Qed.

Lemma matches_none cid (convs : list Conversation.t) :
  (forall conv, conv ∈ convs -> Some (Conversation.id conv) <> cid) ->
  matches cid convs = 0%nat.
Proof.
  induction convs as [|conv rest IH]; intros H; cbn; [reflexivity|].
  unfold matched. rewrite bool_decide_eq_false_2.
  - apply IH. intros c Hc. apply H. apply elem_of_cons. now right.
  - apply H. apply elem_of_cons. now left.
Qed.

Lemma substring_head (n : nat) (s : string) :
  (n <= String.length s)%nat ->
  String.length (String.substring 0 n s) = n
  /\ exists tail, s = String.substring 0 n s +:+ tail.
Proof.
  revert s. induction n as [|n IH]; intros s H.
  - destruct s; cbn; (split; [reflexivity | eexists; reflexivity]).
  - destruct s as [|c s]; cbn in *; [lia|].
    destruct (IH s ltac:(lia)) as [Hl [tail Ht]].
    split; [now rewrite Hl|]. exists tail. unappend. now rewrite <- Ht.
Qed.

Lemma Js_substring_head (n : nat) (s : string) :
  (n <= String.length s)%nat ->
  String.length (Js.substring s 0 n) = n
  /\ exists tail, s = Js.substring s 0 n +:+ tail.
Proof.
  intros H. unfold Js.substring.
  rewrite (Nat.min_l n) by exact H. cbn [Nat.min].
  rewrite Nat.max_r, Nat.sub_0_r by lia. now apply substring_head.
Qed.

(** [ellipsize n] keeps a text of at most [n] code units and cuts a longer
    one to its first [n], followed by three dots. *)
Lemma ellipsize_spec (n : nat) (text : string) :
  ((String.length text <= n)%nat /\ ellipsize n text = text)
  \/ ((n < String.length text)%nat
      /\ exists head tail,
           text = head +:+ tail /\ String.length head = n
           /\ ellipsize n text = head +:+ "...").
Proof.
  unfold ellipsize. destruct (n <? String.length text)%nat eqn:E.
  - apply Nat.ltb_lt in E. right. split; [exact E|].
    destruct (Js_substring_head n text ltac:(lia)) as [Hl [tail Ht]].
    now exists (Js.substring text 0 n), tail.
  - apply Nat.ltb_ge in E. now left.
Qed.

Lemma ellipsize_length (n : nat) (text : string) :
  (String.length (ellipsize n text) <= n + 3)%nat.
Proof.
  destruct (ellipsize_spec n text) as [[H ->]|[_ (head & tail & _ & Hl & ->)]];
    [lia|].
  rewrite length_append, Hl. cbn. lia.
Qed.

(** C7. A metadata update leaves in [lastMessage] of the conversation it
    updates the text itself when that has at most 60 code units, and
    otherwise its first 60 followed by the three dots; so at most 63. *)
Theorem C7_lastMessage_is_text_cut_at_60
    (conversationId : option string) (lastMessage : string) (w : World)
    (i : nat) (conv : Conversation.t) :
  conversations (page w) !! i = Some conv ->
  Some (Conversation.id conv) = conversationId ->
  exists w' conv',
    updateConversationMetadata conversationId lastMessage w = (Ok tt, w')
    /\ conversations (page w') !! i = Some conv'
    /\ ((String.length lastMessage <= 60)%nat ->
        Conversation.lastMessage conv' = lastMessage)
    /\ ((60 < String.length lastMessage)%nat ->
        exists head tail,
          lastMessage = head +:+ tail /\ String.length head = 60%nat
          /\ Conversation.lastMessage conv' = head +:+ "...")
    /\ (String.length (Conversation.lastMessage conv') <= 63)%nat.
Proof.
  intros Hi Hid. rewrite updateConversationMetadata_run.
  destruct (refreshAll_lookup conversationId lastMessage
              (length (chatContent (page w))) (clock w) (clockReads w)
              _ _ _ Hi) as [ts Hts].
  unfold matched in Hts. rewrite bool_decide_eq_true_2 in Hts by exact Hid.
  eexists _, _. split; [reflexivity|]. split; [exact Hts|]. cbn.
  split; [|split].
  - intros Hle. destruct (ellipsize_spec 60 lastMessage) as [[_ ->]|[Hlt _]];
      [reflexivity | lia].
  - intros Hlt. destruct (ellipsize_spec 60 lastMessage) as [[Hle _]|[_ H]];
      [lia | exact H].
  - apply (ellipsize_length 60).
Qed.

(** The seeded data did not pass through an update: the [lastMessage] of
    "conv-5" has 64 code units and stays so until its first update. *)
Lemma seeded_lastMessage_of_conv_5 (now : Z) :
  map (fun conv => String.length (Conversation.lastMessage conv))
      (filter (fun conv => Conversation.id conv = "conv-5") (mockConversations now))
  = [64%nat].
Proof. reflexivity. Qed.

Lemma C7_witness :
  exists w' conv',
    updateConversationMetadata (Some "conv-1") statsReply
      (world (boot (ticking 1000) (sameSuffix "k3j9x0a1b"))) = (Ok tt, w')
    /\ conversations (page w') !! 0%nat = Some conv'
    /\ ((String.length statsReply <= 60)%nat ->
        Conversation.lastMessage conv' = statsReply)
    /\ ((60 < String.length statsReply)%nat ->
        exists head tail,
          statsReply = head +:+ tail /\ String.length head = 60%nat
          /\ Conversation.lastMessage conv' = head +:+ "...")
    /\ (String.length (Conversation.lastMessage conv') <= 63)%nat.
Proof.
  eapply (C7_lastMessage_is_text_cut_at_60 (Some "conv-1") statsReply
            (world (boot (ticking 1000) (sameSuffix "k3j9x0a1b"))) 0);
    [vm_compute; reflexivity | reflexivity].
Defined.

(** C10. A metadata update rewrites only the conversations whose id is the
    one given: the list keeps its length and the order of its ids, every
    other conversation is the same record as before, the thread, the
    selection and the processing flag are untouched, and when no
    conversation has that id nothing changes at all. *)
Theorem C10_update_touches_only_the_named_conversation
    (conversationId : option string) (lastMessage : string) (w : World) :
  exists w',
    updateConversationMetadata conversationId lastMessage w = (Ok tt, w')
    /\ length (conversations (page w')) = length (conversations (page w))
    /\ map Conversation.id (conversations (page w'))
       = map Conversation.id (conversations (page w))
    /\ (forall i conv,
          conversations (page w) !! i = Some conv ->
          Some (Conversation.id conv) <> conversationId ->
          conversations (page w') !! i = Some conv)
    /\ chatContent (page w') = chatContent (page w)
    /\ currentConversationId (page w') = currentConversationId (page w)
    /\ isProcessing (page w') = isProcessing (page w)
    /\ ((forall conv,
           conv ∈ conversations (page w) ->
           Some (Conversation.id conv) <> conversationId) ->
        w' = w).
Proof.
  rewrite updateConversationMetadata_run. eexists. split; [reflexivity|].
  cbn. split; [apply refreshAll_length|]. split; [apply refreshAll_ids|].
  split; [|split; [reflexivity|split; [reflexivity|split; [reflexivity|]]]].
  - intros i conv Hi Hne.
    destruct (refreshAll_lookup conversationId lastMessage
                (length (chatContent (page w))) (clock w) (clockReads w)
                _ _ _ Hi) as [ts ->].
    unfold matched. now rewrite bool_decide_eq_false_2.
  - intros Hnone. apply matches_none in Hnone.
    rewrite refreshAll_unmatched, Hnone by exact Hnone.
    destruct w as [[] ? ? ? ? ?]. reflexivity.
Qed.

(** ** Sending a message ([handleSendMessage]) *)

Lemma sendable_false (content : string) (w : World) :
  noConversationSelected (page w) = true \/ Js.trim content = EmptyString ->
  sendable content w = false.
Proof.
  unfold sendable. intros [->| ->]; [reflexivity|]. apply andb_false_r.
Qed.

Lemma sendable_true (content : string) (w : World) :
  noConversationSelected (page w) = false ->
  Js.trim content <> EmptyString ->
  sendable content w = true.
Proof.
  unfold sendable. intros -> H. destruct (Js.trim content); [contradiction|].
  reflexivity.
Qed.

(** C4. With no conversation selected, or a text that is empty once
    trimmed, [handleSendMessage] returns at once and normally: the world,
    that is the thread, the processing flag and every conversation, is the
    one before the call, and no continuation is left pending. *)
Theorem C4_guarded_send_changes_nothing (content : string) (w : World) :
  noConversationSelected (page w) = true \/ Js.trim content = EmptyString ->
  handleSendMessage content w = (Ok None, w).
Proof.
  intros H. apply handleSendMessage_rejected. now apply sendable_false.
Qed.

Lemma C4_witness :
  handleSendMessage (" " +:+ Js.nl +:+ "  ")
                    (world (boot (ticking 1000) (sameSuffix "k3j9x0a1b")))
  = (Ok None, world (boot (ticking 1000) (sameSuffix "k3j9x0a1b"))).
Proof.
  apply C4_guarded_send_changes_nothing. right. reflexivity.
Defined.

(** The two halves of [handleSendMessage] run one after the other: the
    call appends one user message carrying the trimmed text and raises the
    processing flag; the continuation then appends one model message
    carrying the classifier's reply and lowers the flag.  Whatever the
    thread is when the timer fires, the continuation adds exactly one model
    message at its end. *)
Lemma handleSendMessage_then_resume (content : string) (w : World) :
  noConversationSelected (page w) = false ->
  Js.trim content <> EmptyString ->
  exists k w1 w2 userMessage modelMessage,
    handleSendMessage content w = (Ok (Some k), w1)
    /\ chatContent (page w1) = (chatContent (page w) ++ [userMessage])%list
    /\ ChatMessage.from userMessage = ChatMessage.user
    /\ ChatMessage.content userMessage = Js.trim content
    /\ ChatMessage.status userMessage = Some ChatMessage.complete
    /\ isProcessing (page w1) = true
    /\ handleSendMessage_resume k w1 = (Ok tt, w2)
    /\ chatContent (page w2)
       = (chatContent (page w) ++ [userMessage; modelMessage])%list
    /\ ChatMessage.from modelMessage = ChatMessage.model
    /\ ChatMessage.content modelMessage = generateMockResponse content
    /\ ChatMessage.status modelMessage = Some ChatMessage.complete
    /\ isProcessing (page w2) = false
    /\ (forall w',
          exists w'' reply,
            handleSendMessage_resume k w' = (Ok tt, w'')
            /\ chatContent (page w'') = (chatContent (page w') ++ [reply])%list
            /\ ChatMessage.from reply = ChatMessage.model
            /\ ChatMessage.content reply = generateMockResponse content
            /\ isProcessing (page w'') = false).
Proof.
  intros Hsel Htext.
  rewrite (handleSendMessage_accepted content w (sendable_true _ _ Hsel Htext)).
  eexists _, _, _, _, _. split; [reflexivity|].
  rewrite handleSendMessage_resume_run.
  repeat (split; [reflexivity|]).
  split; [cbn [posted page chatContent]; now rewrite <- app_assoc|].
  repeat (split; [reflexivity|]).
  intros w'. rewrite handleSendMessage_resume_run.
  eexists _, _. repeat split; reflexivity.
Qed.

(** ** The event loop, step by step *)

Lemma posted_settled (w : World) (message : ChatMessage.t) (text : string)
    (processing : bool) :
  currentConversationId (page w) <> None ->
  settle (posted w message text processing) = posted w message text processing.
Proof. intros H. now apply settle_selected. Qed.

Lemma sendable_selected (content : string) (w : World) :
  sendable content w = true -> currentConversationId (page w) <> None.
Proof.
  unfold sendable, noConversationSelected.
  destruct (currentConversationId (page w)); [discriminate | discriminate].
Qed.

Lemma step_listed (e : Event) (s : System) :
  listed (step e s)
  = match e with
    | SelectConversation _ => listed s
    | CreateNew => newConversationIn (world s) :: listed s
    | SendMessage content =>
        if sendable content (world s)
        then refreshAll (selected s) (Js.trim content) (S (length (thread s)))
                        (clock (world s)) (2 + clockReads (world s)) (listed s)
        else listed s
    | TimerFires n =>
        match timers s !! n with
        | Some k =>
            refreshAll (selected s) (generateMockResponse (pending_content k))
                       (S (length (thread s)))
                       (clock (world s)) (2 + clockReads (world s)) (listed s)
        | None => listed s
        end
    end.
Proof.
  unfold listed, selected, thread.
  destruct e as [id| |content|n]; cbn [step world].
  - destruct (settle_frame (snd (handleSelectConversation id (world s)))) as [-> _].
    rewrite handleSelectConversation_run.
    now destruct (storedThread (moduleNow (world s)) id).
  - destruct (settle_frame (snd (handleCreateNew (world s)))) as [-> _].
    reflexivity.
  - destruct (sendable content (world s)) eqn:E.
    + rewrite (handleSendMessage_accepted _ _ E). cbn [world].
      destruct (settle_frame (posted (world s)
                  (messageIn (world s) ChatMessage.user (Js.trim content))
                  (Js.trim content) true)) as [-> _].
      cbn [posted page conversations]. rewrite length_app. cbn [length].
      now rewrite Nat.add_1_r.
    + rewrite (handleSendMessage_rejected _ _ E). cbn [world].
      now destruct (settle_frame (world s)) as [-> _].
  - destruct (timers s !! n) as [k|]; [|reflexivity]. cbn [world].
    rewrite handleSendMessage_resume_run. cbn [snd].
    match goal with |- conversations (page (settle ?w)) = _ =>
      destruct (settle_frame w) as [-> _] end.
    cbn [posted page conversations]. rewrite length_app. cbn [length].
    now rewrite Nat.add_1_r.
Qed.

Lemma appended_posted (w : World) (message : ChatMessage.t) (text : string)
    (processing : bool) :
  appended w (posted w message text processing)
  = [(currentConversationId (page w), message)].
Proof.
  unfold appended. cbn [posted page chatContent currentConversationId].
  now rewrite drop_app_length.
Qed.

Lemma appended_same (w : World) : appended w w = [].
Proof. unfold appended. now rewrite drop_all. Qed.

Lemma step_history (e : Event) (s : System) :
  history (step e s)
  = match e with
    | SelectConversation _ | CreateNew => history s
    | SendMessage content =>
        if sendable content (world s)
        then history s
             ++ [(selected s,
                  messageIn (world s) ChatMessage.user (Js.trim content))]
        else history s
    | TimerFires n =>
        match timers s !! n with
        | Some k =>
            history s
            ++ [(selected s,
                 messageIn (world s) ChatMessage.model
                           (generateMockResponse (pending_content k)))]
        | None => history s
        end
    end%list.
Proof.
  unfold selected. destruct e as [id| |content|n]; cbn [step]; try reflexivity.
  - destruct (sendable content (world s)) eqn:E.
    + rewrite (handleSendMessage_accepted _ _ E). cbn [history].
      now rewrite appended_posted.
    + rewrite (handleSendMessage_rejected _ _ E). cbn [history].
      now rewrite appended_same, app_nil_r.
  - destruct (timers s !! n) as [k|]; [|reflexivity]. cbn [history].
    rewrite handleSendMessage_resume_run. cbn [snd].
    now rewrite appended_posted.
Qed.

Lemma step_moduleNow (e : Event) (s : System) :
  moduleNow (world (step e s)) = moduleNow (world s).
Proof.
  destruct e as [id| |content|n]; cbn [step world].
  - destruct (settle_frame (snd (handleSelectConversation id (world s))))
      as (_ & _ & -> & _).
    rewrite handleSelectConversation_run.
    now destruct (storedThread (moduleNow (world s)) id).
  - now destruct (settle_frame (snd (handleCreateNew (world s))))
      as (_ & _ & -> & _).
  - destruct (sendable content (world s)) eqn:E.
    + rewrite (handleSendMessage_accepted _ _ E). cbn [world].
      match goal with |- moduleNow (settle ?w) = _ =>
        now destruct (settle_frame w) as (_ & _ & -> & _) end.
    + rewrite (handleSendMessage_rejected _ _ E). cbn [world].
      now destruct (settle_frame (world s)) as (_ & _ & -> & _).
  - destruct (timers s !! n) as [k|]; [|reflexivity]. cbn [world].
    rewrite handleSendMessage_resume_run. cbn [snd].
    match goal with |- moduleNow (settle ?w) = _ =>
      now destruct (settle_frame w) as (_ & _ & -> & _) end.
Qed.

Lemma settle_selected_listed (w : World) (x : string) :
  currentConversationId (page (settle w)) = Some x ->
  currentConversationId (page w) = Some x
  \/ x ∈ map Conversation.id (conversations (page w)).
Proof.
  intros H. destruct (settle_selection w) as [E|(conv & rest & Hc & E)].
  - left. congruence.
  - right. rewrite Hc. cbn. rewrite E in H. injection H as <-.
    apply elem_of_cons. now left.
Qed.

Lemma step_ids (e : Event) (s : System) :
  conversationIds (step e s)
  = match e with
    | CreateNew => Conversation.id (newConversationIn (world s)) :: conversationIds s
    | _ => conversationIds s
    end.
Proof.
  unfold conversationIds. fold (listed (step e s)). fold (listed s).
  rewrite step_listed. destruct e as [id| |content|n]; try reflexivity.
  - destruct (sendable content (world s)); [apply refreshAll_ids | reflexivity].
  - destruct (timers s !! n); [apply refreshAll_ids | reflexivity].
Qed.

Lemma step_ids_grow (e : Event) (s : System) (x : string) :
  x ∈ conversationIds s -> x ∈ conversationIds (step e s).
Proof.
  rewrite step_ids. destruct e; try tauto.
  intros H. apply elem_of_cons. now right.
Qed.

(** Where the selection after a step comes from. *)
Lemma step_selected (e : Event) (s : System) (x : string) :
  selected (step e s) = Some x ->
  x ∈ conversationIds (step e s)
  \/ selected s = Some x
  \/ e = SelectConversation x.
Proof.
  unfold selected. intros H.
  destruct e as [id| |content|n]; cbn [step world] in H.
  - apply settle_selected_listed in H as [H|H].
    + right. right. rewrite handleSelectConversation_run in H.
      destruct (storedThread (moduleNow (world s)) id); cbn in H; congruence.
    + left. rewrite step_ids. unfold conversationIds.
      rewrite handleSelectConversation_run in H.
      now destruct (storedThread (moduleNow (world s)) id).
  - left. rewrite step_ids.
    apply settle_selected_listed in H as [H|H].
    + cbn in H. injection H as <-. apply elem_of_cons. now left.
    + exact H.
  - destruct (sendable content (world s)) eqn:E.
    + rewrite (handleSendMessage_accepted _ _ E) in H. cbn [world] in H.
      rewrite posted_settled in H by now apply (sendable_selected content).
      right. left. exact H.
    + rewrite (handleSendMessage_rejected _ _ E) in H. cbn [world] in H.
      apply settle_selected_listed in H as [H|H]; [now right; left|].
      left. now apply step_ids_grow.
  - destruct (timers s !! n) as [k|] eqn:E; [|now right; left].
    cbn [world] in H. rewrite handleSendMessage_resume_run in H. cbn [snd] in H.
    apply settle_selected_listed in H as [H|H].
    + right. left. exact H.
    + left. rewrite step_ids. cbn [posted page conversations] in H.
      now rewrite refreshAll_ids in H.
Qed.

(** ** The message count and the log *)

Lemma appendedTo_app (id : string) (l1 l2 : list (option string * ChatMessage.t)) :
  appendedTo id (l1 ++ l2) = (appendedTo id l1 + appendedTo id l2)%nat.
Proof.
  induction l1 as [|[k m] l1 IH]; cbn; [reflexivity|]. rewrite IH. lia.
Qed.

Lemma refreshAll_elem cid msg n clk reads (convs : list Conversation.t)
    (conv' : Conversation.t) :
  conv' ∈ refreshAll cid msg n clk reads convs ->
  exists conv ts,
    conv ∈ convs
    /\ conv' = if matched cid conv then refresh msg n ts conv else conv.
Proof.
  revert reads. induction convs as [|c rest IH]; intros reads H; cbn in H.
  - now apply elem_of_nil in H.
  - destruct (matched cid c) eqn:E; apply elem_of_cons in H as [->|H].
    + exists c, (clk reads). rewrite E. split; [apply elem_of_cons; now left|reflexivity].
    + destruct (IH _ H) as (conv & ts & Hin & ->).
      exists conv, ts. split; [apply elem_of_cons; now right|reflexivity].
    + exists c, 0. rewrite E. split; [apply elem_of_cons; now left|reflexivity].
    + destruct (IH _ H) as (conv & ts & Hin & ->).
      exists conv, ts. split; [apply elem_of_cons; now right|reflexivity].
Qed.

Lemma exec_snoc (evs : list Event) (e : Event) (s : System) :
  exec (evs ++ [e]) s = step e (exec evs s).
Proof. unfold exec. now rewrite fold_left_app. Qed.

Lemma selectionsListed_snoc (evs : list Event) (e : Event) (s : System) :
  selectionsListed (evs ++ [e]) s
  <-> selectionsListed evs s
      /\ match e with
         | SelectConversation id => id ∈ conversationIds (exec evs s)
         | _ => True
         end.
Proof.
  revert s. induction evs as [|e' evs IH]; intros s; cbn.
  - tauto.
  - rewrite IH. tauto.
Qed.

Lemma seeded_mock (now : Z) (x : string) :
  (0 < seeded now x)%nat -> x ∈ map Conversation.id (mockConversations now).
Proof.
  unfold seeded. intros H.
  destruct (decide (x ∈ map Conversation.id (mockConversations now))) as [|Hn];
    [assumption|].
  exfalso. unfold mockMessages in H.
  rewrite (not_elem_of_list_to_map_1 _ x) in H; [cbn in H; lia|].
  exact Hn.
Qed.

Lemma boot_consistent (clk : nat -> Z) (sfx : nat -> string) :
  consistent (boot clk sfx).
Proof.
  assert (listed (boot clk sfx) = mockConversations (clk 0%nat)) as Hl
    by reflexivity.
  assert (moduleNow (world (boot clk sfx)) = clk 0%nat) as Hn by reflexivity.
  assert (selected (boot clk sfx) = Some "conv-1") as Hs by reflexivity.
  unfold consistent, conversationIds. fold (listed (boot clk sfx)).
  rewrite Hl, Hn, Hs. cbn [boot history appendedTo].
  split; [|split; [|split]].
  - intros conv H. unfold mockConversations in H.
    repeat (apply elem_of_cons in H as [->|H]; [vm_compute; reflexivity|]).
    now apply elem_of_nil in H.
  - intros x [= <-]. cbn. apply elem_of_cons. now left.
  - intros x H. lia.
  - apply seeded_mock.
Qed.

(** Appending one message while [sel] is selected keeps the count right. *)
Lemma consistent_posted (s : System) (convs' : list Conversation.t)
    (log' : list (option string * ChatMessage.t)) (now : Z)
    (text : string) (n reads : nat) (message : ChatMessage.t) :
  consistent s ->
  now = moduleNow (world s) ->
  convs' = refreshAll (selected s) text n (clock (world s)) reads (listed s) ->
  log' = (history s ++ [(selected s, message)])%list ->
  forall conv,
    conv ∈ convs' ->
    Conversation.messageCount conv
    = Z.of_nat (seeded now (Conversation.id conv)
                + appendedTo (Conversation.id conv) log').
Proof.
  intros (Hcount & _) -> -> -> conv' Hin.
  apply refreshAll_elem in Hin as (conv & ts & Hin & ->).
  specialize (Hcount conv Hin). rewrite appendedTo_app. cbn [appendedTo].
  unfold matched. destruct (decide (Some (Conversation.id conv) = selected s)) as [E|E].
  - rewrite bool_decide_eq_true_2 by exact E. cbn [refresh Conversation.id Conversation.messageCount].
    rewrite bool_decide_eq_true_2 by (symmetry; exact E). lia.
  - rewrite bool_decide_eq_false_2 by exact E.
    rewrite bool_decide_eq_false_2 by (intros E'; apply E; symmetry; exact E'). lia.
Qed.

Lemma appendedTo_posted (s : System) (message : ChatMessage.t) (x : string) :
  (0 < appendedTo x (history s ++ [(selected s, message)]))%nat ->
  (0 < appendedTo x (history s))%nat \/ selected s = Some x.
Proof.
  rewrite appendedTo_app. cbn [appendedTo].
  destruct (decide (selected s = Some x)) as [E|E]; [now right|].
  rewrite bool_decide_eq_false_2 by exact E. intros H. left. lia.
Qed.

Lemma step_consistent (e : Event) (s : System) :
  consistent s ->
  match e with
  | SelectConversation id => id ∈ conversationIds s
  | _ => True
  end ->
  NoDup (conversationIds (step e s)) ->
  consistent (step e s).
Proof.
  intros Hs Hlisted Hnodup.
  pose proof Hs as (Hcount & Hsel & Hlog & Hseed).
  assert (forall x, selected (step e s) = Some x -> x ∈ conversationIds (step e s))
    as Hsel'.
  { intros x Hx. apply step_selected in Hx as [Hx|[Hx|Hx]]; [exact Hx| |].
    - apply step_ids_grow. now apply Hsel.
    - subst e. apply step_ids_grow. exact Hlisted. }
  unfold consistent. rewrite step_moduleNow, step_history, step_listed.
  split; [|split; [exact Hsel'|split]].
  - destruct e as [id| |content|n].
    + exact Hcount.
    + intros conv Hin. apply elem_of_cons in Hin as [->|Hin]; [|now apply Hcount].
      rewrite step_ids in Hnodup. apply NoDup_cons in Hnodup as [Hfresh _].
      cbn [newConversationIn Conversation.messageCount Conversation.id] in *.
      destruct (seeded (moduleNow (world s))
                  ("conv-" +:+ Js.Number_toString (clock (world s) (clockReads (world s)))))
        eqn:E1; [|exfalso; apply Hfresh, Hseed; lia].
      destruct (appendedTo
                  ("conv-" +:+ Js.Number_toString (clock (world s) (clockReads (world s))))
                  (history s))
        eqn:E2; [reflexivity|exfalso; apply Hfresh, Hlog; lia].
    + destruct (sendable content (world s)); [|exact Hcount].
      now apply (consistent_posted s _ _ _ _ _ _ _ Hs eq_refl eq_refl eq_refl).
    + destruct (timers s !! n); [|exact Hcount].
      now apply (consistent_posted s _ _ _ _ _ _ _ Hs eq_refl eq_refl eq_refl).
  - intros x Hx.
    assert ((0 < appendedTo x (history s))%nat \/ selected s = Some x) as [H|H].
    { destruct e as [id| |content|n]; [now left|now left| |].
      - destruct (sendable content (world s)); [|now left].
        now apply appendedTo_posted in Hx.
      - destruct (timers s !! n); [|now left].
        now apply appendedTo_posted in Hx. }
    + apply step_ids_grow. now apply Hlog.
    + apply step_ids_grow. now apply Hsel.
  - intros x Hx. apply step_ids_grow. now apply Hseed.
Qed.

Lemma NoDup_before_step (e : Event) (s : System) :
  NoDup (conversationIds (step e s)) -> NoDup (conversationIds s).
Proof.
  rewrite step_ids. destruct e; try tauto.
  intros H. now apply NoDup_cons in H.
Qed.

Lemma reachable_consistent (clk : nat -> Z) (sfx : nat -> string)
    (evs : list Event) :
  selectionsListed evs (boot clk sfx) ->
  NoDup (conversationIds (exec evs (boot clk sfx))) ->
  consistent (exec evs (boot clk sfx)).
Proof.
  induction evs as [|e evs IH] using rev_ind; intros Hl Hn.
  - apply boot_consistent.
  - rewrite exec_snoc in *. apply selectionsListed_snoc in Hl as [Hl He].
    apply step_consistent; [|exact He|exact Hn].
    apply IH; [exact Hl|]. now apply NoDup_before_step in Hn.
Qed.

Lemma step_send_accepted (content : string) (s : System) :
  sendable content (world s) = true ->
  step (SendMessage content) s
  = mkSystem
      (posted (world s) (messageIn (world s) ChatMessage.user (Js.trim content))
              (Js.trim content) true)
      (timers s ++ [mkPending content])
      (history s
       ++ [(selected s, messageIn (world s) ChatMessage.user (Js.trim content))]).
Proof.
  intros E. cbn [step]. rewrite (handleSendMessage_accepted _ _ E).
  rewrite posted_settled by now apply (sendable_selected content).
  now rewrite appended_posted.
Qed.

Lemma step_timer_fired (n : nat) (k : Pending) (s : System) :
  timers s !! n = Some k ->
  selected s <> None ->
  step (TimerFires n) s
  = mkSystem
      (posted (world s)
              (messageIn (world s) ChatMessage.model
                         (generateMockResponse (pending_content k)))
              (generateMockResponse (pending_content k)) false)
      (delete n (timers s))
      (history s
       ++ [(selected s,
            messageIn (world s) ChatMessage.model
                      (generateMockResponse (pending_content k)))]).
Proof.
  intros E Hsel. cbn [step]. rewrite E, handleSendMessage_resume_run. cbn [snd].
  rewrite posted_settled by exact Hsel.
  now rewrite appended_posted.
Qed.

Lemma refreshAll_Forall2 cid msg n clk reads (convs : list Conversation.t) :
  Forall2 (fun conv conv' =>
             if matched cid conv
             then exists ts, conv' = refresh msg n ts conv
             else conv' = conv)
          convs (refreshAll cid msg n clk reads convs).
Proof.
  revert reads. induction convs as [|c rest IH]; intros reads; cbn;
    [constructor|].
  destruct (matched cid c) eqn:E; constructor; try apply IH; rewrite E; eauto.
Qed.

Lemma Forall2_conversationAt (P : Conversation.t -> Conversation.t -> Prop)
    (s s' : System) (k : nat) (conv : Conversation.t) :
  Forall2 P (listed s) (listed s') ->
  conversationAt s k = Some conv ->
  exists conv', conversationAt s' k = Some conv' /\ P conv conv'.
Proof.
  unfold conversationAt. fold (listed s) (listed s'). intros H Hk.
  apply Forall2_reverse in H. exact (Forall2_lookup_l _ _ _ _ _ H Hk).
Qed.

Lemma Forall2_same (l : list Conversation.t) :
  Forall2 (fun conv conv' => conv' = conv) l l.
Proof. induction l; constructor; auto. Qed.

Lemma step_conversationAt (e : Event) (s : System) (k : nat)
    (conv : Conversation.t) :
  conversationAt s k = Some conv ->
  exists conv', conversationAt (step e s) k = Some conv' /\ successor s e conv conv'.
Proof.
  intros Hk.
  destruct e as [id| |content|n].
  - apply (Forall2_conversationAt (successor s (SelectConversation id)) s);
      [|exact Hk].
    rewrite step_listed. apply Forall2_same.
  - exists conv. split; [|reflexivity].
    unfold conversationAt in *. fold (listed (step CreateNew s)).
    rewrite step_listed, reverse_cons. fold (listed s) in Hk.
    now apply lookup_app_l_Some.
  - apply (Forall2_conversationAt (successor s (SendMessage content)) s);
      [|exact Hk].
    rewrite step_listed. unfold successor.
    destruct (sendable content (world s)); cbn [andb].
    + apply refreshAll_Forall2.
    + apply Forall2_same.
  - apply (Forall2_conversationAt (successor s (TimerFires n)) s); [|exact Hk].
    rewrite step_listed. unfold successor. destruct (timers s !! n).
    + apply refreshAll_Forall2.
    + apply Forall2_same.
Qed.

Lemma exchange_unfold (content : string) (s : System) :
  sendable content (world s) = true ->
  exists s1,
    s1 = step (SendMessage content) s
    /\ exchange content s = step (TimerFires (length (timers s))) s1
    /\ timers s1 !! length (timers s) = Some (mkPending content)
    /\ selected s1 = selected s
    /\ thread s1
       = (thread s ++ [messageIn (world s) ChatMessage.user (Js.trim content)])%list
    /\ history s1
       = (history s
          ++ [(selected s, messageIn (world s) ChatMessage.user (Js.trim content))])%list.
Proof.
  intros E. eexists. split; [reflexivity|]. split; [reflexivity|].
  rewrite (step_send_accepted _ _ E). cbn [timers history].
  split; [apply list_lookup_middle; reflexivity|]. now split.
Qed.

Lemma exchange_counts (content : string) (s : System) :
  sendable content (world s) = true ->
  (exists userMessage modelMessage,
      history (exchange content s)
      = (history s ++ [(selected s, userMessage); (selected s, modelMessage)])%list
      /\ ChatMessage.from userMessage = ChatMessage.user
      /\ ChatMessage.from modelMessage = ChatMessage.model)
  /\ (forall k conv,
        conversationAt s k = Some conv ->
        exists conv',
          conversationAt (exchange content s) k = Some conv'
          /\ Conversation.id conv' = Conversation.id conv
          /\ Conversation.messageCount conv'
             = Conversation.messageCount conv
               + (if matched (selected s) conv then 2 else 0)).
Proof.
  intros E.
  destruct (exchange_unfold _ _ E) as (s1 & Hs1 & -> & Ht & Hsel & Hth & Hh).
  assert (selected s1 <> None) as Hsel1.
  { rewrite Hsel. now apply (sendable_selected content). }
  split.
  - rewrite (step_timer_fired _ _ _ Ht Hsel1). cbn [history].
    rewrite Hh, Hsel, <- app_assoc. eexists _, _. now split.
  - intros k conv Hk.
    destruct (step_conversationAt (SendMessage content) s k conv Hk)
      as (conv1 & Hk1 & H1).
    rewrite <- Hs1 in Hk1.
    destruct (step_conversationAt (TimerFires (length (timers s))) s1 k conv1 Hk1)
      as (conv2 & Hk2 & H2).
    exists conv2. split; [exact Hk2|].
    unfold successor in H1, H2. rewrite E in H1. rewrite Ht, Hsel in H2.
    cbn [andb] in H1.
    assert (matched (selected s) conv1 = matched (selected s) conv) as Hm.
    { destruct (matched (selected s) conv) eqn:Ec; [|now subst].
      destruct H1 as [ts ->]. exact Ec. }
    rewrite Hm in H2.
    destruct (matched (selected s) conv).
    + destruct H1 as [ts1 ->]. destruct H2 as [ts2 ->]. cbn. split; [reflexivity|lia].
    + subst. split; [reflexivity|lia].
Qed.

(** X18. In every state reached through selections of listed
    conversations, while the conversation ids are pairwise distinct, the
    [messageCount] of each listed conversation is the number of messages it
    was seeded with plus the number appended since while it was the selected
    one, user and model messages alike.  A send answered by its own
    continuation, with nothing in between, appends two messages while the
    same conversation is selected and raises its count by exactly two. *)
Theorem messageCount_counts_appended_messages_under_distinct_ids
    (clk : nat -> Z) (sfx : nat -> string) (evs : list Event) :
  selectionsListed evs (boot clk sfx) ->
  NoDup (conversationIds (exec evs (boot clk sfx))) ->
  (forall conv,
      conv ∈ listed (exec evs (boot clk sfx)) ->
      Conversation.messageCount conv
      = Z.of_nat
          (seeded (moduleNow (world (exec evs (boot clk sfx)))) (Conversation.id conv)
           + appendedTo (Conversation.id conv) (history (exec evs (boot clk sfx)))))
  /\ (forall content,
        sendable content (world (exec evs (boot clk sfx))) = true ->
        (exists userMessage modelMessage,
            history (exchange content (exec evs (boot clk sfx)))
            = (history (exec evs (boot clk sfx))
               ++ [(selected (exec evs (boot clk sfx)), userMessage);
                   (selected (exec evs (boot clk sfx)), modelMessage)])%list
            /\ ChatMessage.from userMessage = ChatMessage.user
            /\ ChatMessage.from modelMessage = ChatMessage.model)
        /\ (forall k conv,
              conversationAt (exec evs (boot clk sfx)) k = Some conv ->
              exists conv',
                conversationAt (exchange content (exec evs (boot clk sfx))) k
                = Some conv'
                /\ Conversation.id conv' = Conversation.id conv
                /\ Conversation.messageCount conv'
                   = Conversation.messageCount conv
                     + (if matched (selected (exec evs (boot clk sfx))) conv
                        then 2 else 0))).
Proof.
  intros Hl Hn. split.
  - now destruct (reachable_consistent clk sfx evs Hl Hn) as [H _].
  - intros content E. now apply exchange_counts.
Qed.

Lemma messageCount_counts_witness :
  Conversation.messageCount
    {| Conversation.id := "conv-2";
       Conversation.title := "Repository Statistics";
       Conversation.lastMessage := ellipsize 60 statsReply;
       Conversation.timestamp := 1006;
       Conversation.messageCount := 8 |}
  = Z.of_nat
      (seeded 1000 "conv-2"
       + appendedTo "conv-2"
           (history (exec [SelectConversation "conv-2"; SendMessage "velocity?";
                           TimerFires 0]
                          (boot (ticking 1000) (sameSuffix "k3j9x0a1b"))))).
Proof.
  destruct (messageCount_counts_appended_messages_under_distinct_ids
              (ticking 1000) (sameSuffix "k3j9x0a1b")
              [SelectConversation "conv-2"; SendMessage "velocity?"; TimerFires 0])
    as [Hcount _].
  - cbn [selectionsListed]. repeat split.
    refine (bool_decide_unpack _ _). vm_compute. exact I.
  - refine (bool_decide_unpack _ _). vm_compute. exact I.
  - apply (Hcount {| Conversation.id := "conv-2";
                     Conversation.title := "Repository Statistics";
                     Conversation.lastMessage := ellipsize 60 statsReply;
                     Conversation.timestamp := 1006;
                     Conversation.messageCount := 8 |}).
    vm_compute. apply elem_of_cons. right. apply elem_of_cons. left. reflexivity.
Defined.

(** ** Titles *)

Lemma successor_id (s : System) (e : Event) (conv conv' : Conversation.t) :
  successor s e conv conv' -> Conversation.id conv' = Conversation.id conv.
Proof.
  unfold successor. destruct e as [id| |content|n]; try (now intros ->).
  - destruct (sendable content (world s) && matched (selected s) conv);
      [now intros [ts ->] | now intros ->].
  - destruct (timers s !! n); [|now intros ->].
    destruct (matched (selected s) conv); [now intros [ts ->] | now intros ->].
Qed.

Lemma refresh_title_kept (text : string) (n : nat) (ts : Z) (conv : Conversation.t) :
  Conversation.title conv <> "New Chat" ->
  Conversation.title (refresh text n ts conv) = Conversation.title conv.
Proof.
  intros H. cbn. now rewrite bool_decide_eq_false_2.
Qed.

Lemma refresh_title_changed (text : string) (n : nat) (ts : Z)
    (conv : Conversation.t) :
  Conversation.title (refresh text n ts conv) <> Conversation.title conv ->
  Conversation.title conv = "New Chat" /\ n = 1%nat
  /\ Conversation.title (refresh text n ts conv) = ellipsize 30 text.
Proof.
  cbn. destruct (decide (Conversation.title conv = "New Chat")) as [E|E].
  - rewrite bool_decide_eq_true_2 by exact E.
    destruct (decide (n = 1%nat)) as [En|En].
    + rewrite bool_decide_eq_true_2 by exact En. cbn. tauto.
    + rewrite bool_decide_eq_false_2 by exact En. cbn. tauto.
  - rewrite bool_decide_eq_false_2 by exact E. cbn. tauto.
Qed.

Lemma successor_title_kept (s : System) (e : Event) (conv conv' : Conversation.t) :
  successor s e conv conv' ->
  Conversation.title conv <> "New Chat" ->
  Conversation.title conv' = Conversation.title conv.
Proof.
  unfold successor. intros H Hne.
  destruct e as [id| |content|n]; try (now subst).
  - destruct (sendable content (world s) && matched (selected s) conv);
      [|now subst].
    destruct H as [ts ->]. now apply refresh_title_kept.
  - destruct (timers s !! n); [|now subst].
    destruct (matched (selected s) conv); [|now subst].
    destruct H as [ts ->]. now apply refresh_title_kept.
Qed.

Lemma successor_title_changed (s : System) (e : Event)
    (conv conv' : Conversation.t) :
  successor s e conv conv' ->
  Conversation.title conv' <> Conversation.title conv ->
  Conversation.title conv = "New Chat"
  /\ thread s = []
  /\ selected s = Some (Conversation.id conv)
  /\ exists text,
       appendedText e s = Some text
       /\ Conversation.title conv' = ellipsize 30 text.
Proof.
  unfold successor, appendedText. intros H Hne.
  destruct e as [id| |content|n]; try congruence.
  - destruct (sendable content (world s)); [|congruence]. cbn [andb] in H.
    destruct (matched (selected s) conv) eqn:Em; [|congruence].
    destruct H as [ts ->].
    apply refresh_title_changed in Hne as (Ht & Hn & Hc).
    apply bool_decide_eq_true_1 in Em.
    repeat split; [exact Ht| |now symmetry|eauto].
    destruct (thread s); [reflexivity | discriminate].
  - destruct (timers s !! n) as [p|]; [|congruence]. cbn.
    destruct (matched (selected s) conv) eqn:Em; [|congruence].
    destruct H as [ts ->].
    apply refresh_title_changed in Hne as (Ht & Hn & Hc).
    apply bool_decide_eq_true_1 in Em.
    repeat split; [exact Ht| |now symmetry|eauto].
    destruct (thread s); [reflexivity | discriminate].
Qed.

Lemma title_settled (evs : list Event) (s : System) (k : nat)
    (conv : Conversation.t) :
  conversationAt s k = Some conv ->
  Conversation.title conv <> "New Chat" ->
  exists conv',
    conversationAt (exec evs s) k = Some conv'
    /\ Conversation.id conv' = Conversation.id conv
    /\ Conversation.title conv' = Conversation.title conv.
Proof.
  revert s conv. induction evs as [|e evs IH]; intros s conv Hk Hne.
  - exists conv. now split.
  - destruct (step_conversationAt e s k conv Hk) as (conv1 & Hk1 & H1).
    pose proof (successor_title_kept _ _ _ _ H1 Hne) as Ht.
    pose proof (successor_id _ _ _ _ H1) as Hi.
    destruct (IH (step e s) conv1 Hk1 ltac:(congruence)) as (conv' & Hk' & Hi' & Ht').
    exists conv'. cbn [exec fold_left]. split; [exact Hk'|]. split; congruence.
Qed.

(** C6, as the code has it.  A title that differs from "New Chat" never
    changes again, so it moves away from the default at most once.  A step
    changes the title of a conversation only if the title is the default,
    the conversation is the selected one and the message the step appends
    is the only one of the thread on screen; the new title is then the text
    of that message when it has at most 30 code units, and otherwise its
    first 30 followed by three dots. *)
Theorem C6_title_set_once_from_sole_message_of_thread
    (s : System) (k : nat) (conv : Conversation.t) :
  conversationAt s k = Some conv ->
  (forall e conv',
      conversationAt (step e s) k = Some conv' ->
      Conversation.title conv' <> Conversation.title conv ->
      Conversation.title conv = "New Chat"
      /\ thread s = []
      /\ selected s = Some (Conversation.id conv)
      /\ exists text,
           appendedText e s = Some text
           /\ ((String.length text <= 30)%nat -> Conversation.title conv' = text)
           /\ ((30 < String.length text)%nat ->
               exists head tail,
                 text = head +:+ tail /\ String.length head = 30%nat
                 /\ Conversation.title conv' = head +:+ "..."))
  /\ (Conversation.title conv <> "New Chat" ->
      forall evs,
        exists conv',
          conversationAt (exec evs s) k = Some conv'
          /\ Conversation.id conv' = Conversation.id conv
          /\ Conversation.title conv' = Conversation.title conv).
Proof.
  intros Hk. split.
  - intros e conv' Hk' Hne.
    destruct (step_conversationAt e s k conv Hk) as (conv1 & Hk1 & H1).
    assert (conv1 = conv') as -> by congruence.
    destruct (successor_title_changed _ _ _ _ H1 Hne) as (Ht & Hth & Hsel & text & Ha & Hc).
    repeat split; try assumption.
    exists text. split; [exact Ha|]. rewrite Hc. split.
    + intros Hle. destruct (ellipsize_spec 30 text) as [[_ ->]|[Hlt _]];
        [reflexivity | lia].
    + intros Hlt. destruct (ellipsize_spec 30 text) as [[Hle _]|[_ H]];
        [lia | exact H].
  - intros Hne evs. now apply title_settled.
Qed.

Lemma C6_witness :
  exists conv',
    conversationAt
      (exec [SelectConversation "conv-7"; SendMessage "Approve it too";
             TimerFires 0]
            (boot (ticking 1000) (sameSuffix "k3j9x0a1b"))) 0
    = Some conv'
    /\ Conversation.id conv' = "conv-7"
    /\ Conversation.title conv' = "Pull Request Review".
Proof.
  assert (conversationAt (boot (ticking 1000) (sameSuffix "k3j9x0a1b")) 0
          = Some {| Conversation.id := "conv-7";
                    Conversation.title := "Pull Request Review";
                    Conversation.lastMessage :=
                      "The PR #42 has been reviewed and approved.";
                    Conversation.timestamp := 1000 - 1000 * 60 * 45;
                    Conversation.messageCount := 8 |}) as Hk
    by (vm_compute; reflexivity).
  destruct (C6_title_set_once_from_sole_message_of_thread _ _ _ Hk) as [_ Hkept].
  apply Hkept. discriminate.
Defined.

(** The title rule as first stated fails: a conversation whose first
    message is the text "New Chat" keeps the default title; once it is
    selected again its thread on screen is empty, and the next message, its
    third, renames it. *)
Lemma C6_title_changes_on_third_message : ~ titleChangesOnFirstMessageOnly.
Proof.
  intros H.
  pose (run := [CreateNew; SendMessage "New Chat"; TimerFires 0;
                SelectConversation "conv-1001"]).
  pose (before := {| Conversation.id := "conv-1001";
                     Conversation.title := "New Chat";
                     Conversation.lastMessage :=
                       ellipsize 60 (generateMockResponse "New Chat");
                     Conversation.timestamp := 1008;
                     Conversation.messageCount := 2 |}).
  pose (after := {| Conversation.id := "conv-1001";
                    Conversation.title := "hello";
                    Conversation.lastMessage := "hello";
                    Conversation.timestamp := 1011;
                    Conversation.messageCount := 3 |}).
  assert (2 = 0) as E; [|discriminate E].
  apply (H (ticking 1000) (sameSuffix "k3j9x0a1b") run (SendMessage "hello")
           7%nat before after).
  - vm_compute. reflexivity.
  - vm_compute. reflexivity.
  - vm_compute. reflexivity.
  - discriminate.
Qed.

(** ** Selecting a conversation ([handleSelectConversation]) *)

Lemma mockMessages_keys (now : Z) (x : string) (messages : list ChatMessage.t) :
  mockMessages now !! x = Some messages ->
  x ∈ map Conversation.id (mockConversations now).
Proof.
  intros H.
  destruct (decide (x ∈ map Conversation.id (mockConversations now))) as [|Hn];
    [assumption|].
  unfold mockMessages in H.
  rewrite (not_elem_of_list_to_map_1 _ x) in H; [discriminate|exact Hn].
Qed.

Lemma exec_cons (e : Event) (evs : list Event) (s : System) :
  exec (e :: evs) s = exec evs (step e s).
Proof. reflexivity. Qed.

Lemma exec_ids_grow (evs : list Event) (s : System) (x : string) :
  x ∈ conversationIds s -> x ∈ conversationIds (exec evs s).
Proof.
  revert s. induction evs as [|e evs IH]; intros s H; [exact H|].
  rewrite exec_cons. apply IH. now apply step_ids_grow.
Qed.

Lemma exec_moduleNow (evs : list Event) (s : System) :
  moduleNow (world (exec evs s)) = moduleNow (world s).
Proof.
  revert s. induction evs as [|e evs IH]; intros s; [reflexivity|].
  rewrite exec_cons, IH. apply step_moduleNow.
Qed.

Lemma unlisted_storedThread (clk : nat -> Z) (sfx : nat -> string)
    (evs : list Event) (id : string) :
  id ∉ conversationIds (exec evs (boot clk sfx)) ->
  inherited id = false ->
  storedThread (moduleNow (world (exec evs (boot clk sfx)))) id = Ok [].
Proof.
  intros Hid Hinh. unfold storedThread. rewrite exec_moduleNow, Hinh.
  destruct (mockMessages (moduleNow (world (boot clk sfx))) !! id) eqn:E;
    [|reflexivity].
  exfalso. apply Hid, exec_ids_grow. apply mockMessages_keys in E. exact E.
Qed.

(** C8, as the code has it.  Selecting an id that no listed conversation
    bears, and that is not a name inherited by the message table, raises
    nothing: the thread becomes empty, the processing flag is cleared and
    the id itself is stored as the selection.  So no listed conversation is
    selected, yet the guard of [handleSendMessage] sees a selection unless
    the id is the empty string. *)
Theorem C8_unlisted_id_is_stored_with_an_empty_thread
    (clk : nat -> Z) (sfx : nat -> string) (evs : list Event) (id : string) :
  id ∉ conversationIds (exec evs (boot clk sfx)) ->
  inherited id = false ->
  exists w',
    handleSelectConversation id (world (exec evs (boot clk sfx))) = (Ok tt, w')
    /\ page w' = mkPage (listed (exec evs (boot clk sfx))) (Some id) [] false
    /\ (forall conv,
          conv ∈ conversations (page w') -> Conversation.id conv <> id)
    /\ noConversationSelected (page w') = negb (Js.truthy id).
Proof.
  intros Hid Hinh. rewrite handleSelectConversation_run.
  rewrite (unlisted_storedThread _ _ _ _ Hid Hinh).
  eexists. split; [reflexivity|]. cbn. split; [reflexivity|]. split; [|reflexivity].
  intros conv Hin <-. apply Hid. unfold conversationIds.
  apply list_elem_of_In, in_map, list_elem_of_In, Hin.
Qed.

Lemma C8_witness :
  exists w',
    handleSelectConversation "conv-999"
      (world (exec [CreateNew] (boot (ticking 1000) (sameSuffix "k3j9x0a1b"))))
    = (Ok tt, w')
    /\ currentConversationId (page w') = Some "conv-999"
    /\ chatContent (page w') = []
    /\ isProcessing (page w') = false.
Proof.
  destruct (C8_unlisted_id_is_stored_with_an_empty_thread
              (ticking 1000) (sameSuffix "k3j9x0a1b") [CreateNew] "conv-999")
    as (w' & Hrun & Hpage & _).
  - refine (bool_decide_unpack _ _). vm_compute. exact I.
  - vm_compute. reflexivity.
  - exists w'. split; [exact Hrun|]. rewrite Hpage. cbn. repeat split.
Defined.

(** Selection of an unlisted id as first stated fails: after
    [handleSelectConversation "conv-999"] the variable holds "conv-999",
    which the guard of [handleSendMessage] takes for a selection. *)
Lemma C8_unlisted_id_stays_selected : ~ selectingUnlistedIdSelectsNothing.
Proof.
  intros H.
  destruct (H (ticking 1000) (sameSuffix "k3j9x0a1b") [] "conv-999")
    as (w' & Hrun & Hsel & _).
  - refine (bool_decide_unpack _ _). vm_compute. exact I.
  - rewrite handleSelectConversation_run in Hrun.
    assert (storedThread
              (moduleNow (world (exec [] (boot (ticking 1000) (sameSuffix "k3j9x0a1b")))))
              "conv-999" = Ok []) as E by (vm_compute; reflexivity).
    rewrite E in Hrun. injection Hrun as <-. discriminate Hsel.
Qed.

(** After such a selection a send is not a no-op: it appends to the thread
    and leaves a continuation pending. *)
Lemma send_after_unlisted_selection :
  let s := exec [SelectConversation "conv-999"; SendMessage "hi"]
                (boot (ticking 1000) (sameSuffix "k3j9x0a1b")) in
  selected s = Some "conv-999"
  /\ map ChatMessage.content (thread s) = ["hi"]
  /\ timers s = [mkPending "hi"].
Proof. vm_compute. repeat split. Qed.

(** An inherited name is not an own key: the lookup yields a function,
    the spread throws, and the assignments after it are not reached. *)
Lemma select_inherited_name_throws :
  fst (handleSelectConversation "constructor"
         (world (boot (ticking 1000) (sameSuffix "k3j9x0a1b"))))
  = Throw TypeError.
Proof. vm_compute. reflexivity. Qed.

(** ** Code defects *)

(** C2. The continuation reads [currentConversationId] when the timer
    fires.  A message is sent in "conv-1", "conv-2" is selected before the
    reply arrives: the reply is appended to the thread of "conv-2" and the
    second metadata update goes to "conv-2", whose count moves from 6 to 7
    and whose [lastMessage] becomes the reply, while "conv-1" is counted
    once only. *)
Theorem C2_reply_lands_on_conversation_selected_when_timer_fires :
  let start := boot (ticking 1000) (sameSuffix "k3j9x0a1b") in
  let run := [SendMessage "hello"; SelectConversation "conv-2"; TimerFires 0] in
  let final := exec run start in
  feasible run start = true
  /\ selected start = Some "conv-1"
  /\ map (fun c => (Conversation.id c, Conversation.messageCount c)) (listed start)
     = [("conv-1", 4); ("conv-2", 6); ("conv-3", 5); ("conv-4", 3);
        ("conv-5", 7); ("conv-6", 4); ("conv-7", 8)]
  /\ map (fun c => (Conversation.id c, Conversation.messageCount c)) (listed final)
     = [("conv-1", 5); ("conv-2", 7); ("conv-3", 5); ("conv-4", 3);
        ("conv-5", 7); ("conv-6", 4); ("conv-7", 8)]
  /\ map (fun c => Conversation.lastMessage c) (take 2 (listed final))
     = ["hello"; ellipsize 60 (generateMockResponse "hello")]
  /\ map (fun m => (ChatMessage.from m, ChatMessage.content m)) (thread final)
     = (map (fun m => (ChatMessage.from m, ChatMessage.content m))
            (messages_conv_2 1000)
        ++ [(ChatMessage.model, generateMockResponse "hello")])%list
  /\ map fst (history final) = [Some "conv-1"; Some "conv-2"].
Proof. vm_compute. repeat split. Qed.

(** C9. The id of a new conversation is "conv-" followed by the reading of
    the clock, and nothing else: two conversations created within the same
    millisecond bear the same id. *)
Theorem C9_two_creations_in_one_millisecond_share_an_id
    (t : Z) (sfx : nat -> string) :
  let final := exec [CreateNew; CreateNew] (boot (frozen t) sfx) in
  feasible [CreateNew; CreateNew] (boot (frozen t) sfx) = true
  /\ take 2 (conversationIds final)
     = ["conv-" +:+ Js.Number_toString t; "conv-" +:+ Js.Number_toString t]
  /\ ~ NoDup (conversationIds final).
Proof.
  cbn zeta. split; [reflexivity|].
  unfold exec. cbn [fold_left]. rewrite !step_ids. split; [reflexivity|].
  intros H. apply NoDup_cons in H as [H _]. apply H.
  apply elem_of_cons. left. reflexivity.
Qed.

(** C5. Two runs in which a message does not add one to the count of the
    conversation it belongs to.  In the first, the run of C2, the exchange
    started in "conv-1" is completed: its two messages are logged, but the
    reply was counted on "conv-2", selected when the timer fired, so that
    "conv-1" moved from 4 to 5 and "conv-2", where nothing was sent, from 6
    to 7.  In the second, two conversations were created within the same
    millisecond and bear the same id (C9): the one message sent is counted
    on both. *)
Theorem C5_reply_counted_on_another_conversation :
  feasible [SendMessage "hello"; SelectConversation "conv-2"; TimerFires 0]
           (boot (ticking 1000) (sameSuffix "k3j9x0a1b")) = true
  /\ map (fun entry => (fst entry, ChatMessage.from (snd entry)))
         (history (exec [SendMessage "hello"; SelectConversation "conv-2"; TimerFires 0]
                        (boot (ticking 1000) (sameSuffix "k3j9x0a1b"))))
     = [(Some "conv-1", ChatMessage.user); (Some "conv-2", ChatMessage.model)]
  /\ timers (exec [SendMessage "hello"; SelectConversation "conv-2"; TimerFires 0]
                  (boot (ticking 1000) (sameSuffix "k3j9x0a1b"))) = []
  /\ map (fun c => (Conversation.id c, Conversation.messageCount c))
         (take 2 (listed (boot (ticking 1000) (sameSuffix "k3j9x0a1b"))))
     = [("conv-1", 4); ("conv-2", 6)]
  /\ map (fun c => (Conversation.id c, Conversation.messageCount c))
         (take 2 (listed (exec [SendMessage "hello"; SelectConversation "conv-2";
                                TimerFires 0]
                               (boot (ticking 1000) (sameSuffix "k3j9x0a1b")))))
     = [("conv-1", 5); ("conv-2", 7)]
  /\ feasible [CreateNew; CreateNew; SendMessage "hi"]
              (boot (frozen 1700000000000) (sameSuffix "k3j9x0a1b")) = true
  /\ length (history (exec [CreateNew; CreateNew; SendMessage "hi"]
                           (boot (frozen 1700000000000) (sameSuffix "k3j9x0a1b"))))
     = 1%nat
  /\ map (fun c => (Conversation.id c, Conversation.messageCount c))
         (take 2 (listed (exec [CreateNew; CreateNew; SendMessage "hi"]
                               (boot (frozen 1700000000000) (sameSuffix "k3j9x0a1b")))))
     = [("conv-1700000000000", 1); ("conv-1700000000000", 1)].
Proof. vm_compute. repeat split. Qed.

(** * Further properties of the code *)

(** ** Conversation ids ([generateConversationId], [handleCreateNew]) *)

Lemma to_int_not_nil (z : Z) :
  Z.to_int z <> Decimal.Pos Decimal.Nil /\ Z.to_int z <> Decimal.Neg Decimal.Nil.
Proof.
  destruct z as [|p|p]; cbn; split; try discriminate;
    intros [= H]; now apply (DecimalPos.Unsigned.to_uint_nonnil p).
Qed.

Lemma Number_toString_inj (a b : Z) :
  Js.Number_toString a = Js.Number_toString b -> a = b.
Proof.
  unfold Js.Number_toString. intros H. apply DecimalZ.to_int_inj.
  destruct (to_int_not_nil a) as [Ha1 Ha2], (to_int_not_nil b) as [Hb1 Hb2].
  pose proof (NilZero.isi _ Ha1 Ha2) as Ea.
  pose proof (NilZero.isi _ Hb1 Hb2) as Eb.
  rewrite H in Ea. congruence.
Qed.

Lemma append_inj_r (a b c : string) : a +:+ b = a +:+ c -> b = c.
Proof.
  induction a as [|x a IH]; unappend; [tauto|]. intros [= H]. now apply IH.
Qed.

(** X1. The id of a new conversation determines the reading of the clock
    it was built from, and conversely: two calls return the same id exactly
    when the clock returned the same value to both. *)
Theorem generateConversationId_same_id_iff_same_reading (w1 w2 : World) :
  fst (generateConversationId w1) = fst (generateConversationId w2)
  <-> clock w1 (clockReads w1) = clock w2 (clockReads w2).
Proof.
  cbn. split.
  - intros [= H]. now apply append_inj_r, Number_toString_inj in H.
  - now intros ->.
Qed.

Lemma step_clock (e : Event) (s : System) :
  clock (world (step e s)) = clock (world s)
  /\ (clockReads (world s) <= clockReads (world (step e s)))%nat.
Proof.
  destruct e as [id| |content|n]; cbn [step world].
  - destruct (settle_frame (snd (handleSelectConversation id (world s))))
      as (_ & _ & _ & -> & -> & _).
    rewrite handleSelectConversation_run.
    now destruct (storedThread (moduleNow (world s)) id).
  - destruct (settle_frame (snd (handleCreateNew (world s))))
      as (_ & _ & _ & -> & -> & _).
    cbn. split; [reflexivity | lia].
  - destruct (sendable content (world s)) eqn:E.
    + rewrite (handleSendMessage_accepted _ _ E). cbn [world].
      match goal with |- clock (settle ?w) = _ /\ _ =>
        destruct (settle_frame w) as (_ & _ & _ & -> & -> & _) end.
      cbn. split; [reflexivity | lia].
    + rewrite (handleSendMessage_rejected _ _ E). cbn [world].
      now destruct (settle_frame (world s)) as (_ & _ & _ & -> & -> & _).
  - destruct (timers s !! n) as [k|]; [|split; [reflexivity | lia]]. cbn [world].
    rewrite handleSendMessage_resume_run. cbn [snd].
    match goal with |- clock (settle ?w) = _ /\ _ =>
      destruct (settle_frame w) as (_ & _ & _ & -> & -> & _) end.
    cbn. split; [reflexivity | lia].
Qed.

Lemma step_clockReads_create (s : System) :
  clockReads (world (step CreateNew s)) = (2 + clockReads (world s))%nat.
Proof.
  cbn [step world].
  now destruct (settle_frame (snd (handleCreateNew (world s))))
    as (_ & _ & _ & _ & -> & _).
Qed.

Lemma mock_id_form (now : Z) (id : string) :
  id ∈ map Conversation.id (mockConversations now) ->
  exists i, 1 <= i <= 7 /\ id = "conv-" +:+ Js.Number_toString i.
Proof.
  cbn. intros H.
  repeat (apply elem_of_cons in H as [->|H];
          [first [ exists 1; split; [lia|reflexivity]
                 | exists 2; split; [lia|reflexivity]
                 | exists 3; split; [lia|reflexivity]
                 | exists 4; split; [lia|reflexivity]
                 | exists 5; split; [lia|reflexivity]
                 | exists 6; split; [lia|reflexivity]
                 | exists 7; split; [lia|reflexivity] ]|]).
  now apply elem_of_nil in H.
Qed.

(** Every listed id is a seeded one or was built from an earlier reading of
    the clock. *)
Lemma ids_from_clock (clk : nat -> Z) (sfx : nat -> string) (evs : list Event) :
  clock (world (exec evs (boot clk sfx))) = clk
  /\ forall id,
       id ∈ conversationIds (exec evs (boot clk sfx)) ->
       (exists i, 1 <= i <= 7 /\ id = "conv-" +:+ Js.Number_toString i)
       \/ exists k,
            (k < clockReads (world (exec evs (boot clk sfx))))%nat
            /\ id = "conv-" +:+ Js.Number_toString (clk k).
Proof.
  induction evs as [|e evs [IHc IH]] using rev_ind.
  - split; [reflexivity|]. intros id H. left.
    now apply (mock_id_form (clk 0%nat)).
  - rewrite exec_snoc. destruct (step_clock e (exec evs (boot clk sfx))) as [Hc Hr].
    split; [congruence|]. intros id H. rewrite step_ids in H.
    assert (id ∈ conversationIds (exec evs (boot clk sfx))
            \/ (e = CreateNew
                /\ id = Conversation.id (newConversationIn (world (exec evs (boot clk sfx))))))
      as [Hin|[-> ->]].
    { destruct e; try (now left). apply elem_of_cons in H as [->|H]; [now right | now left]. }
    + destruct (IH id Hin) as [Hm|(k & Hk & ->)]; [now left|].
      right. exists k. split; [lia | reflexivity].
    + right. exists (clockReads (world (exec evs (boot clk sfx)))).
      rewrite step_clockReads_create. split; [lia|].
      cbn [newConversationIn Conversation.id]. now rewrite IHc.
Qed.

(** X2. When the clock never returns the same value twice, nor a value
    from 1 to 7 (the numbers of the seeded ids), the ids of the listed
    conversations are pairwise distinct after any sequence of events. *)
Theorem conversation_ids_distinct_under_an_injective_clock
    (clk : nat -> Z) (sfx : nat -> string) (evs : list Event) :
  (forall j k, clk j = clk k -> j = k) ->
  (forall k, clk k < 1 \/ 7 < clk k) ->
  NoDup (conversationIds (exec evs (boot clk sfx))).
Proof.
  intros Hinj Havoid. induction evs as [|e evs IH] using rev_ind.
  - change (NoDup (map Conversation.id (mockConversations (clk 0%nat)))).
    cbn. refine (bool_decide_unpack _ _). vm_compute. exact I.
  - rewrite exec_snoc, step_ids.
    destruct e; try exact IH.
    apply NoDup_cons. split; [|exact IH].
    destruct (ids_from_clock clk sfx evs) as [Hc Hids].
    cbn [newConversationIn Conversation.id]. rewrite Hc. intros Hin.
    destruct (Hids _ Hin) as [(i & Hi & E)|(k & Hk & E)];
      apply append_inj_r, Number_toString_inj in E.
    + specialize (Havoid (clockReads (world (exec evs (boot clk sfx))))). lia.
    + apply Hinj in E. lia.
Qed.

Lemma conversation_ids_distinct_witness :
  NoDup (conversationIds
           (exec [CreateNew; CreateNew; SendMessage "hello"; CreateNew]
                 (boot (ticking 1700000000000) (sameSuffix "k3j9x0a1b")))).
Proof.
  apply conversation_ids_distinct_under_an_injective_clock.
  - unfold ticking. intros j k H. lia.
  - unfold ticking. intros k. lia.
Defined.

(** ** The life of a conversation *)

Lemma successor_count (s : System) (e : Event) (conv conv' : Conversation.t) :
  successor s e conv conv' ->
  Conversation.messageCount conv' = Conversation.messageCount conv
  \/ Conversation.messageCount conv' = Conversation.messageCount conv + 1.
Proof.
  unfold successor. destruct e as [id| |content|n]; try (intros ->; now left).
  - destruct (sendable content (world s) && matched (selected s) conv);
      [intros [ts ->]; now right | intros ->; now left].
  - destruct (timers s !! n); [|intros ->; now left].
    destruct (matched (selected s) conv);
      [intros [ts ->]; now right | intros ->; now left].
Qed.

Lemma step_listed_length (e : Event) (s : System) :
  (length (listed s) <= length (listed (step e s)))%nat.
Proof.
  rewrite step_listed. destruct e as [id| |content|n]; cbn [length]; try lia.
  - destruct (sendable content (world s)); rewrite ?refreshAll_length; lia.
  - destruct (timers s !! n); rewrite ?refreshAll_length; lia.
Qed.

(** X3. A listed conversation is never removed and never moves: whatever
    events follow, the conversation created [k]-th is still the [k]-th, it
    bears the same id and its [messageCount] has not decreased. *)
Theorem conversations_persist_with_stable_id_and_growing_count
    (evs : list Event) (s : System) (k : nat) (conv : Conversation.t) :
  conversationAt s k = Some conv ->
  (length (listed s) <= length (listed (exec evs s)))%nat
  /\ exists conv',
       conversationAt (exec evs s) k = Some conv'
       /\ Conversation.id conv' = Conversation.id conv
       /\ Conversation.messageCount conv <= Conversation.messageCount conv'.
Proof.
  revert s conv. induction evs as [|e evs IH]; intros s conv Hk.
  - split; [reflexivity|]. exists conv. repeat split; [exact Hk | lia].
  - destruct (step_conversationAt e s k conv Hk) as (conv1 & Hk1 & H1).
    destruct (IH (step e s) conv1 Hk1) as (Hlen & conv' & Hk' & Hid & Hcount).
    rewrite exec_cons. split.
    + pose proof (step_listed_length e s). lia.
    + exists conv'. split; [exact Hk'|].
      rewrite Hid, (successor_id _ _ _ _ H1). split; [reflexivity|].
      destruct (successor_count _ _ _ _ H1); lia.
Qed.

Lemma conversations_persist_witness :
  exists conv',
    conversationAt
      (exec [SendMessage "hello"; CreateNew; TimerFires 0;
             SelectConversation "conv-7"]
            (boot (ticking 1000) (sameSuffix "k3j9x0a1b"))) 0
    = Some conv'
    /\ Conversation.id conv' = "conv-7"
    /\ 8 <= Conversation.messageCount conv'.
Proof.
  assert (conversationAt (boot (ticking 1000) (sameSuffix "k3j9x0a1b")) 0
          = Some {| Conversation.id := "conv-7";
                    Conversation.title := "Pull Request Review";
                    Conversation.lastMessage :=
                      "The PR #42 has been reviewed and approved.";
                    Conversation.timestamp := 1000 - 1000 * 60 * 45;
                    Conversation.messageCount := 8 |}) as Hk
    by (vm_compute; reflexivity).
  destruct (conversations_persist_with_stable_id_and_growing_count
              [SendMessage "hello"; CreateNew; TimerFires 0;
               SelectConversation "conv-7"] _ _ _ Hk) as [_ H].
  exact H.
Defined.

(** ** The selection *)

Lemma step_selected_kept (e : Event) (s : System) :
  selected s <> None -> selected (step e s) <> None.
Proof.
  unfold selected. intros H. destruct e as [id| |content|n]; cbn [step world].
  - rewrite settle_selected; rewrite handleSelectConversation_run;
      now destruct (storedThread (moduleNow (world s)) id).
  - now rewrite settle_selected.
  - destruct (sendable content (world s)) eqn:E.
    + rewrite (handleSendMessage_accepted _ _ E). cbn [world].
      now rewrite posted_settled.
    + rewrite (handleSendMessage_rejected _ _ E). cbn [world].
      now rewrite settle_selected.
  - destruct (timers s !! n) as [k|]; [|exact H]. cbn [world].
    rewrite handleSendMessage_resume_run. cbn [snd].
    now rewrite posted_settled.
Qed.

(** X4. As long as the selections made are of listed conversations, a
    conversation is selected at all times once the page is mounted, and the
    selected id is the id of a listed conversation. *)
Theorem selection_is_always_a_listed_conversation
    (clk : nat -> Z) (sfx : nat -> string) (evs : list Event) :
  selectionsListed evs (boot clk sfx) ->
  exists id,
    selected (exec evs (boot clk sfx)) = Some id
    /\ id ∈ conversationIds (exec evs (boot clk sfx)).
Proof.
  induction evs as [|e evs IH] using rev_ind; intros Hl.
  - exists "conv-1". split; [reflexivity|].
    change ("conv-1" ∈ map Conversation.id (mockConversations (clk 0%nat))).
    cbn. apply elem_of_cons. now left.
  - rewrite exec_snoc. apply selectionsListed_snoc in Hl as [Hl He].
    destruct (IH Hl) as (id0 & Hsel & Hin).
    destruct (selected (step e (exec evs (boot clk sfx)))) as [id|] eqn:E.
    + exists id. split; [reflexivity|].
      apply step_selected in E as [E|[E|E]]; [exact E| |].
      * apply step_ids_grow. congruence.
      * subst e. now apply step_ids_grow.
    + exfalso. revert E. apply step_selected_kept. congruence.
Qed.

Lemma selection_is_always_listed_witness :
  exists id,
    selected (exec [CreateNew; SelectConversation "conv-3"; SendMessage "hi"]
                   (boot (ticking 1000) (sameSuffix "k3j9x0a1b"))) = Some id
    /\ id ∈ conversationIds
              (exec [CreateNew; SelectConversation "conv-3"; SendMessage "hi"]
                    (boot (ticking 1000) (sameSuffix "k3j9x0a1b"))).
Proof.
  apply selection_is_always_a_listed_conversation.
  cbn [selectionsListed]. repeat split.
  refine (bool_decide_unpack _ _). vm_compute. exact I.
Defined.

(** ** The text box ([routes/Input.svelte]) *)

Lemma trimStart_headKept (s : string) : headKept (Js.trimStart s).
Proof.
  induction s as [|c s IH]; cbn; [exact I|].
  destruct (Js.isWhiteSpace c) eqn:E; [exact IH | exact E].
Qed.

Lemma trimStart_id (s : string) : headKept s -> Js.trimStart s = s.
Proof. destruct s as [|c s]; cbn; [reflexivity|]. now intros ->. Qed.

Lemma trimEnd_headKept (s : string) : headKept s -> headKept (Js.trimEnd s).
Proof.
  destruct s as [|c s]; cbn; [tauto|]. intros H.
  destruct (Js.trimEnd s); [rewrite H|]; exact H.
Qed.

Lemma trimEnd_cons (c : ascii) (s : string) :
  Js.trimEnd (String c s)
  = match Js.trimEnd s with
    | EmptyString =>
        if Js.isWhiteSpace c then EmptyString else String c EmptyString
    | r => String c r
    end.
Proof. reflexivity. Qed.

Lemma trimEnd_idem (s : string) : Js.trimEnd (Js.trimEnd s) = Js.trimEnd s.
Proof.
  induction s as [|c s IH]; [reflexivity|]. rewrite trimEnd_cons.
  destruct (Js.trimEnd s) as [|d r] eqn:E.
  - destruct (Js.isWhiteSpace c) eqn:Ec; [reflexivity|].
    rewrite trimEnd_cons. cbn [Js.trimEnd]. now rewrite Ec.
  - rewrite trimEnd_cons, IH. reflexivity.
Qed.

Lemma trim_idem (s : string) : Js.trim (Js.trim s) = Js.trim s.
Proof.
  unfold Js.trim.
  rewrite (trimStart_id (Js.trimEnd (Js.trimStart s))).
  - apply trimEnd_idem.
  - apply trimEnd_headKept, trimStart_headKept.
Qed.

Lemma truthy_false (s : string) : Js.truthy s = false <-> s = EmptyString.
Proof. destruct s; cbn; split; congruence. Qed.

(** X5. [handleSend] calls [onSendMessage] only when the element is bound,
    the box is not disabled and the text is not blank; what it passes is
    the trimmed text, which is not empty and which a second trim leaves
    alone, and the box is cleared.  In every other case the text stays in
    the box and nothing is sent. *)
Theorem text_box_passes_on_trimmed_text_or_keeps_it
    (isProcessing : bool) (inputElement : option string) :
  match ChatInput.handleSend isProcessing inputElement with
  | (box, Some content) =>
      isProcessing = false
      /\ box = Some EmptyString
      /\ content <> EmptyString
      /\ Js.trim content = content
      /\ exists innerText,
           inputElement = Some innerText /\ content = Js.trim innerText
  | (box, None) =>
      box = inputElement
      /\ (inputElement = None
          \/ isProcessing = true
          \/ exists innerText,
               inputElement = Some innerText /\ Js.trim innerText = EmptyString)
  end.
Proof.
  unfold ChatInput.handleSend.
  destruct inputElement as [innerText|]; [|now split; [|left]].
  destruct isProcessing; [now split; [|right; left]|].
  destruct (Js.truthy (Js.trim innerText)) eqn:E; cbn [negb].
  - repeat split.
    + intros H. rewrite H in E. discriminate.
    + apply trim_idem.
    + now exists innerText.
  - split; [reflexivity|]. right. right. exists innerText.
    split; [reflexivity|]. now apply truthy_false.
Qed.

Lemma step_send_rejected (content : string) (s : System) :
  sendable content (world s) = false ->
  step (SendMessage content) s
  = mkSystem (settle (world s)) (timers s) (history s).
Proof.
  intros E. cbn [step]. rewrite (handleSendMessage_rejected _ _ E).
  now rewrite appended_same, !app_nil_r.
Qed.

(** X6. A text typed in the box and submitted while a conversation is
    selected and no reply is awaited reaches the thread: the box is
    cleared, one user message carrying the trimmed text is appended,
    [isProcessing] is raised and one continuation, holding the trimmed
    text, is pending.  While a reply is awaited a submission changes
    nothing, neither on the page nor in the box. *)
Theorem submitted_text_reaches_the_thread (innerText : string) (s : System) :
  noConversationSelected (page (world s)) = false ->
  Js.trim innerText <> EmptyString ->
  (isProcessing (page (world s)) = true ->
   submit (Some innerText) s = (Some innerText, s))
  /\ (isProcessing (page (world s)) = false ->
      exists userMessage,
        fst (submit (Some innerText) s) = Some EmptyString
        /\ thread (snd (submit (Some innerText) s))
           = (thread s ++ [userMessage])%list
        /\ ChatMessage.from userMessage = ChatMessage.user
        /\ ChatMessage.content userMessage = Js.trim innerText
        /\ isProcessing (page (world (snd (submit (Some innerText) s)))) = true
        /\ timers (snd (submit (Some innerText) s))
           = (timers s ++ [mkPending (Js.trim innerText)])%list).
Proof.
  intros Hsel Htext. unfold submit, ChatInput.handleSend. split; intros ->.
  - reflexivity.
  - destruct (Js.truthy (Js.trim innerText)) eqn:E;
      [|apply truthy_false in E; contradiction].
    cbn [negb fst snd].
    rewrite step_send_accepted
      by (apply sendable_true; [exact Hsel | now rewrite trim_idem]).
    rewrite trim_idem. eexists. repeat split.
Qed.

Lemma submitted_text_witness :
  exists userMessage,
    fst (submit (Some "  hello there ") (boot (ticking 1000) (sameSuffix "k3j9x0a1b")))
    = Some EmptyString
    /\ thread (snd (submit (Some "  hello there ")
                      (boot (ticking 1000) (sameSuffix "k3j9x0a1b"))))
       = (thread (boot (ticking 1000) (sameSuffix "k3j9x0a1b")) ++ [userMessage])%list
    /\ ChatMessage.content userMessage = "hello there".
Proof.
  destruct (submitted_text_reaches_the_thread "  hello there "
              (boot (ticking 1000) (sameSuffix "k3j9x0a1b")))
    as [_ H].
  - vm_compute. reflexivity.
  - vm_compute. discriminate.
  - destruct H as (u & H1 & H2 & _ & H3 & _); [vm_compute; reflexivity|].
    exists u. repeat split; assumption.
Defined.

(** X7. Enter without Shift always suppresses the default action of the
    key, also when nothing is sent because the box is disabled or blank,
    and then does what [handleSend] does; Shift+Enter and every other key
    are left to the browser: nothing is sent and the text is untouched. *)
Theorem enter_submits_and_other_keys_are_left_alone
    (event : ChatInput.KeyboardEvent) (isProcessing : bool)
    (inputElement : option string) :
  (ChatInput.key event = "Enter" /\ ChatInput.shiftKey event = false ->
   ChatInput.handleKeyDown event isProcessing inputElement
   = (true, ChatInput.handleSend isProcessing inputElement))
  /\ (ChatInput.key event <> "Enter" \/ ChatInput.shiftKey event = true ->
      ChatInput.handleKeyDown event isProcessing inputElement
      = (false, (inputElement, None)))
  /\ (snd (snd (ChatInput.handleKeyDown event isProcessing inputElement)) <> None ->
      ChatInput.key event = "Enter" /\ ChatInput.shiftKey event = false
      /\ isProcessing = false).
Proof.
  unfold ChatInput.handleKeyDown. split; [|split].
  - intros [-> ->]. reflexivity.
  - intros [H|H].
    + now rewrite bool_decide_eq_false_2.
    + rewrite H. now rewrite andb_false_r.
  - destruct (decide (ChatInput.key event = "Enter")) as [E|E].
    + rewrite bool_decide_eq_true_2 by exact E.
      destruct (ChatInput.shiftKey event); cbn; [congruence|].
      intros H. repeat split; try assumption.
      unfold ChatInput.handleSend in H.
      destruct inputElement; [|now cbn in H].
      destruct isProcessing; [now cbn in H | reflexivity].
    + rewrite bool_decide_eq_false_2 by exact E. cbn. congruence.
Qed.

(** ** One reply at a time *)

Lemma one_pending_step (e : Event) (s : System) :
  (isProcessing (page (world s)) = false /\ timers s = []
   \/ isProcessing (page (world s)) = true /\ exists k, timers s = [k]) ->
  keepsSelection e = true ->
  offered s e = true ->
  isProcessing (page (world (step e s))) = false /\ timers (step e s) = []
  \/ isProcessing (page (world (step e s))) = true
     /\ exists k, timers (step e s) = [k].
Proof.
  intros Hinv Hkeep Hoff. destruct e as [id| |content|n]; try discriminate.
  - cbn [offered] in Hoff. apply andb_true_iff in Hoff as [Hoff _].
    apply andb_true_iff in Hoff as [Hoff _]. apply negb_true_iff in Hoff.
    destruct Hinv as [[_ Ht]|[Hp _]]; [|congruence].
    destruct (sendable content (world s)) eqn:E.
    + right. rewrite (step_send_accepted _ _ E). cbn. rewrite Ht.
      split; [reflexivity|]. now eexists.
    + left. rewrite (step_send_rejected _ _ E). cbn [world timers].
      destruct (settle_frame (world s)) as (_ & -> & _). now split.
  - cbn [offered] in Hoff. apply bool_decide_eq_true_1 in Hoff.
    destruct Hinv as [[_ Ht]|[_ [k Ht]]]; [rewrite Ht in Hoff; cbn in Hoff; lia|].
    rewrite Ht in Hoff. cbn in Hoff. assert (n = 0%nat) as -> by lia.
    left. cbn [step]. rewrite Ht. cbn [lookup list_lookup world timers].
    rewrite handleSendMessage_resume_run. cbn [snd].
    match goal with |- isProcessing (page (settle ?w)) = _ /\ _ =>
      destruct (settle_frame w) as (_ & -> & _) end.
    now split.
Qed.

(** X8. Back pressure.  As long as the user only sends (through the text
    box, which is disabled while [isProcessing]) and timers fire, at most
    one continuation is pending, and one is pending exactly while
    [isProcessing] is set. *)
Theorem at_most_one_reply_is_awaited (evs : list Event) (s : System) :
  isProcessing (page (world s)) = false ->
  timers s = [] ->
  forallb keepsSelection evs = true ->
  feasible evs s = true ->
  isProcessing (page (world (exec evs s))) = false /\ timers (exec evs s) = []
  \/ isProcessing (page (world (exec evs s))) = true
     /\ exists k, timers (exec evs s) = [k].
Proof.
  intros Hp Ht. assert (isProcessing (page (world s)) = false /\ timers s = []
                        \/ isProcessing (page (world s)) = true
                           /\ exists k, timers s = [k]) as Hinv by (left; now split).
  clear Hp Ht. revert s Hinv.
  induction evs as [|e evs IH]; intros s Hinv Hkeep Hfeas; [exact Hinv|].
  cbn [forallb] in Hkeep. apply andb_true_iff in Hkeep as [Hk Hkeep].
  cbn [feasible] in Hfeas. apply andb_true_iff in Hfeas as [Ho Hfeas].
  rewrite exec_cons. apply IH; [|exact Hkeep|exact Hfeas].
  now apply one_pending_step.
Qed.

Lemma at_most_one_reply_witness :
  isProcessing
    (page (world (exec [SendMessage "hello"; TimerFires 0; SendMessage "again"]
                       (boot (ticking 1000) (sameSuffix "k3j9x0a1b"))))) = false
  /\ timers (exec [SendMessage "hello"; TimerFires 0; SendMessage "again"]
                  (boot (ticking 1000) (sameSuffix "k3j9x0a1b"))) = []
  \/ isProcessing
       (page (world (exec [SendMessage "hello"; TimerFires 0; SendMessage "again"]
                          (boot (ticking 1000) (sameSuffix "k3j9x0a1b"))))) = true
     /\ exists k,
          timers (exec [SendMessage "hello"; TimerFires 0; SendMessage "again"]
                       (boot (ticking 1000) (sameSuffix "k3j9x0a1b"))) = [k].
Proof.
  apply at_most_one_reply_is_awaited.
  - vm_compute. reflexivity.
  - vm_compute. reflexivity.
  - vm_compute. reflexivity.
  - vm_compute. reflexivity.
Defined.

(** Selecting a conversation clears [isProcessing] and cancels nothing: the
    box accepts a second text while the first reply is still pending. *)
Lemma selection_lets_a_second_reply_be_awaited :
  feasible [SendMessage "first"; SelectConversation "conv-2"; SendMessage "second"]
           (boot (ticking 1000) (sameSuffix "k3j9x0a1b")) = true
  /\ timers (exec [SendMessage "first"; SelectConversation "conv-2";
                   SendMessage "second"]
                  (boot (ticking 1000) (sameSuffix "k3j9x0a1b")))
     = [mkPending "first"; mkPending "second"].
Proof. vm_compute. split; reflexivity. Qed.

(** ** A new conversation and its first exchange *)

Lemma step_create (s : System) :
  step CreateNew s
  = mkSystem
      (mkWorld (mkPage (newConversationIn (world s) :: listed s)
                       (Some (Conversation.id (newConversationIn (world s)))) [] false)
               (moduleNow (world s)) (clock (world s)) (2 + clockReads (world s))
               (suffixes (world s)) (suffixReads (world s)))
      (timers s) (history s).
Proof. cbn [step]. now rewrite settle_selected. Qed.

Lemma matched_self (conv : Conversation.t) :
  matched (Some (Conversation.id conv)) conv = true.
Proof. unfold matched. now apply bool_decide_eq_true_2. Qed.

(** X9. "New chat", then a text that is not blank, then its reply: the new
    conversation is first in the list, before the conversations there were;
    its thread holds the user message and the reply; its [messageCount] is
    2, its title the trimmed text cut at 30 and its [lastMessage] the reply
    cut at 60; it is the selected one and no reply is awaited. *)
Theorem first_exchange_of_a_new_conversation (content : string) (s : System) :
  Js.trim content <> EmptyString ->
  exists conv rest userMessage modelMessage,
    listed (exchange content (step CreateNew s)) = conv :: rest
    /\ map Conversation.id rest = conversationIds s
    /\ Conversation.id conv
       = "conv-" +:+ Js.Number_toString (clock (world s) (clockReads (world s)))
    /\ Conversation.messageCount conv = 2
    /\ Conversation.title conv = ellipsize 30 (Js.trim content)
    /\ Conversation.lastMessage conv = ellipsize 60 (generateMockResponse content)
    /\ thread (exchange content (step CreateNew s)) = [userMessage; modelMessage]
    /\ ChatMessage.from userMessage = ChatMessage.user
    /\ ChatMessage.content userMessage = Js.trim content
    /\ ChatMessage.from modelMessage = ChatMessage.model
    /\ ChatMessage.content modelMessage = generateMockResponse content
    /\ selected (exchange content (step CreateNew s)) = Some (Conversation.id conv)
    /\ isProcessing (page (world (exchange content (step CreateNew s)))) = false.
Proof.
  intros Htext.
  assert (sendable content (world (step CreateNew s)) = true) as E.
  { rewrite step_create. apply sendable_true; [reflexivity | exact Htext]. }
  destruct (exchange_unfold _ _ E) as (s1 & Hs1 & -> & Ht & Hsel & Hth & _).
  assert (selected s1 <> None) as Hsel1.
  { rewrite Hsel, step_create. discriminate. }
  rewrite (step_timer_fired _ _ _ Ht Hsel1).
  unfold listed, thread, selected in *. cbn [world posted page conversations
    chatContent currentConversationId isProcessing pending_content].
  rewrite Hs1, (step_send_accepted _ _ E), step_create.
  cbn [world posted page conversations chatContent currentConversationId
       isProcessing app length refreshAll].
  rewrite (matched_self (newConversationIn (world s))).
  cbn [refreshAll].
  match goal with |- context [matched ?c (refresh ?t ?n ?ts ?conv)] =>
    change (matched c (refresh t n ts conv)) with (matched c conv)
  end.
  rewrite (matched_self (newConversationIn (world s))).
  eexists _, _, _, _. split; [reflexivity|].
  split; [now rewrite !refreshAll_ids|].
  cbn. repeat split.
  rewrite (bool_decide_eq_false_2 (2%nat = 1%nat)) by discriminate.
  rewrite andb_false_r.
  now rewrite (bool_decide_eq_true_2 ("New Chat" = "New Chat")).
Qed.

Lemma first_exchange_witness :
  exists conv rest userMessage modelMessage,
    listed (exchange "Tell me about open issues"
              (step CreateNew (boot (ticking 1000) (sameSuffix "k3j9x0a1b"))))
    = conv :: rest
    /\ Conversation.messageCount conv = 2
    /\ Conversation.title conv = "Tell me about open issues"
    /\ thread (exchange "Tell me about open issues"
                 (step CreateNew (boot (ticking 1000) (sameSuffix "k3j9x0a1b"))))
       = [userMessage; modelMessage]
    /\ ChatMessage.content modelMessage = issuesReply.
Proof.
  destruct (first_exchange_of_a_new_conversation "Tell me about open issues"
              (boot (ticking 1000) (sameSuffix "k3j9x0a1b")))
    as (conv & rest & u & m & H1 & _ & _ & H2 & H3 & _ & H4 & _ & _ & _ & H5 & _).
  - vm_compute. discriminate.
  - exists conv, rest, u, m. repeat split; assumption.
Defined.

(** ** Selecting a listed conversation *)

Lemma conv_prefix_not_inherited (x : string) : inherited ("conv-" +:+ x) = false.
Proof.
  unfold inherited, Object_prototype_names. apply bool_decide_eq_false_2.
  intros H. unappend.
  repeat (apply elem_of_cons in H as [H|H]; [discriminate H|]).
  now apply elem_of_nil in H.
Qed.

Lemma listed_not_inherited (clk : nat -> Z) (sfx : nat -> string)
    (evs : list Event) (id : string) :
  id ∈ conversationIds (exec evs (boot clk sfx)) -> inherited id = false.
Proof.
  intros H. destruct (ids_from_clock clk sfx evs) as [_ Hids].
  destruct (Hids id H) as [(i & _ & ->)|(k & _ & ->)];
    apply conv_prefix_not_inherited.
Qed.

(** X10. Selecting a listed conversation shows the messages it was seeded
    with and nothing else: what was sent and answered since the page was
    mounted is not shown again, although [messageCount] still counts it.
    The conversations and the pending continuations are left as they are
    and [isProcessing] is cleared. *)
Theorem selecting_reloads_the_seeded_thread_only
    (clk : nat -> Z) (sfx : nat -> string) (evs : list Event)
    (conv : Conversation.t) :
  selectionsListed evs (boot clk sfx) ->
  NoDup (conversationIds (exec evs (boot clk sfx))) ->
  conv ∈ listed (exec evs (boot clk sfx)) ->
  thread (step (SelectConversation (Conversation.id conv)) (exec evs (boot clk sfx)))
  = default [] (mockMessages (clk 0%nat) !! Conversation.id conv)
  /\ Conversation.messageCount conv
     = Z.of_nat
         (length (thread (step (SelectConversation (Conversation.id conv))
                               (exec evs (boot clk sfx))))
          + appendedTo (Conversation.id conv) (history (exec evs (boot clk sfx))))
  /\ selected (step (SelectConversation (Conversation.id conv))
                    (exec evs (boot clk sfx)))
     = Some (Conversation.id conv)
  /\ isProcessing
       (page (world (step (SelectConversation (Conversation.id conv))
                          (exec evs (boot clk sfx))))) = false
  /\ listed (step (SelectConversation (Conversation.id conv)) (exec evs (boot clk sfx)))
     = listed (exec evs (boot clk sfx))
  /\ timers (step (SelectConversation (Conversation.id conv)) (exec evs (boot clk sfx)))
     = timers (exec evs (boot clk sfx)).
Proof.
  intros Hl Hn Hin.
  assert (Conversation.id conv ∈ conversationIds (exec evs (boot clk sfx))) as Hid
    by (apply list_elem_of_In, in_map, list_elem_of_In, Hin).
  pose proof (listed_not_inherited _ _ _ _ Hid) as Hinh.
  destruct (reachable_consistent clk sfx evs Hl Hn) as [Hcount _].
  specialize (Hcount conv Hin). rewrite exec_moduleNow in Hcount.
  change (moduleNow (world (boot clk sfx))) with (clk 0%nat) in Hcount.
  assert (storedThread (clk 0%nat) (Conversation.id conv)
          = Ok (default [] (mockMessages (clk 0%nat) !! Conversation.id conv))) as Hst.
  { unfold storedThread. rewrite Hinh.
    now destruct (mockMessages (clk 0%nat) !! Conversation.id conv). }
  unfold thread, selected, listed in *. cbn [step world timers].
  rewrite settle_selected;
    rewrite handleSelectConversation_run, exec_moduleNow;
    change (moduleNow (world (boot clk sfx))) with (clk 0%nat);
    rewrite Hst; [|discriminate].
  cbn. repeat split. exact Hcount.
Qed.

Lemma selecting_reloads_witness :
  thread (step (SelectConversation "conv-1")
               (exec [SendMessage "hello"; TimerFires 0]
                     (boot (ticking 1000) (sameSuffix "k3j9x0a1b"))))
  = default [] (mockMessages 1000 !! "conv-1").
Proof.
  pose (conv := {| Conversation.id := "conv-1";
                   Conversation.title := "GitHub Issue Analysis";
                   Conversation.lastMessage :=
                     ellipsize 60 (generateMockResponse "hello");
                   Conversation.timestamp := 1006;
                   Conversation.messageCount := 6 |}).
  destruct (selecting_reloads_the_seeded_thread_only
              (ticking 1000) (sameSuffix "k3j9x0a1b")
              [SendMessage "hello"; TimerFires 0] conv) as [H _].
  - cbn [selectionsListed]. repeat split.
  - refine (bool_decide_unpack _ _). vm_compute. exact I.
  - vm_compute. apply elem_of_cons. left. reflexivity.
  - exact H.
Defined.

(** ** The length of [lastMessage] over a whole run *)

Lemma refresh_lastMessage_length (text : string) (n : nat) (ts : Z)
    (conv : Conversation.t) :
  (String.length (Conversation.lastMessage (refresh text n ts conv)) <= 63)%nat.
Proof. apply (ellipsize_length 60). Qed.

(** X11. In every state the page can be in, the [lastMessage] of a listed
    conversation has at most 63 code units, with one exception: the seeded
    "conv-5", whose text has 64, as long as no message was appended to it. *)
Theorem lastMessage_is_short_except_untouched_conv_5
    (clk : nat -> Z) (sfx : nat -> string) (evs : list Event)
    (conv : Conversation.t) :
  conv ∈ listed (exec evs (boot clk sfx)) ->
  (String.length (Conversation.lastMessage conv) <= 63)%nat
  \/ (Conversation.id conv = "conv-5"
      /\ Conversation.messageCount conv = 7
      /\ Conversation.lastMessage conv
         = "I can help you create a new issue. What would you like to track?").
Proof.
  revert conv. induction evs as [|e evs IH] using rev_ind; intros conv H.
  - change (conv ∈ mockConversations (clk 0%nat)) in H.
    unfold mockConversations in H.
    repeat (apply elem_of_cons in H as [->|H];
            [first [left; cbn; lia | right; repeat split]|]).
    now apply elem_of_nil in H.
  - rewrite exec_snoc, step_listed in H.
    destruct e as [id| |content|n].
    + now apply IH.
    + apply elem_of_cons in H as [->|H]; [left; cbn; lia | now apply IH].
    + destruct (sendable content (world (exec evs (boot clk sfx))));
        [|now apply IH].
      apply refreshAll_elem in H as (conv0 & ts & Hin & ->).
      destruct (matched _ conv0); [left; apply refresh_lastMessage_length|].
      now apply IH.
    + destruct (timers (exec evs (boot clk sfx)) !! n); [|now apply IH].
      apply refreshAll_elem in H as (conv0 & ts & Hin & ->).
      destruct (matched _ conv0); [left; apply refresh_lastMessage_length|].
      now apply IH.
Qed.

Lemma lastMessage_is_short_witness :
  (String.length (ellipsize 60 (generateMockResponse "hello")) <= 63)%nat
  \/ ("conv-1" = "conv-5"
      /\ 6 = 7
      /\ ellipsize 60 (generateMockResponse "hello")
         = "I can help you create a new issue. What would you like to track?").
Proof.
  apply (lastMessage_is_short_except_untouched_conv_5
           (ticking 1000) (sameSuffix "k3j9x0a1b")
           [SendMessage "hello"; TimerFires 0]
           {| Conversation.id := "conv-1";
              Conversation.title := "GitHub Issue Analysis";
              Conversation.lastMessage :=
                ellipsize 60 (generateMockResponse "hello");
              Conversation.timestamp := 1006;
              Conversation.messageCount := 6 |}).
  vm_compute. apply elem_of_cons. left. reflexivity.
Defined.

(** ** Messages *)

Lemma storedThread_complete (now : Z) (id : string) (messages : list ChatMessage.t) :
  storedThread now id = Ok messages -> Forall isComplete messages.
Proof.
  unfold storedThread. destruct (mockMessages now !! id) as [ms|] eqn:E.
  - intros [= <-]. unfold mockMessages in E.
    apply elem_of_list_to_map_2 in E.
    repeat (apply elem_of_cons in E as [[= _ ->]|E];
            [unfold messages_conv_1, messages_conv_2, messages_conv_3,
               messages_conv_4, messages_conv_5, messages_conv_6,
               messages_conv_7;
             repeat (constructor; [reflexivity|]); constructor|]).
    now apply elem_of_nil in E.
  - destruct (inherited id); [discriminate|]. intros [= <-]. constructor.
Qed.

Lemma settle_thread (w : World) :
  chatContent (page (settle w)) = chatContent (page w)
  \/ exists id, storedThread (moduleNow w) id = Ok (chatContent (page (settle w))).
Proof.
  unfold settle, autoSelectEffect, bind, getPage.
  destruct (conversations (page w)) as [|conv rest]; [now left|].
  destruct (currentConversationId (page w)); [now left|].
  unfold set_currentConversationId, modifyPage.
  cbn [fst snd page currentConversationId].
  rewrite loadConversationMessages_run. cbn [moduleNow].
  destruct (storedThread (moduleNow w) (Conversation.id conv)) eqn:E;
    [right; now exists (Conversation.id conv) | now left].
Qed.

Lemma settle_complete (w : World) :
  Forall isComplete (chatContent (page w)) ->
  Forall isComplete (chatContent (page (settle w))).
Proof.
  intros H. destruct (settle_thread w) as [->|[id E]]; [exact H|].
  now apply storedThread_complete in E.
Qed.

Lemma messageIn_complete (w : World) (sender : ChatMessage.Sender) (text : string) :
  isComplete (messageIn w sender text).
Proof. reflexivity. Qed.

Lemma step_complete (e : Event) (s : System) :
  Forall isComplete (thread s) /\ Forall (fun entry => isComplete (snd entry)) (history s) ->
  Forall isComplete (thread (step e s))
  /\ Forall (fun entry => isComplete (snd entry)) (history (step e s)).
Proof.
  intros [Ht Hh]. split.
  - unfold thread in *. destruct e as [id| |content|n]; cbn [step world].
    + apply settle_complete. rewrite handleSelectConversation_run.
      destruct (storedThread (moduleNow (world s)) id) eqn:E; cbn; [|exact Ht].
      now apply storedThread_complete in E.
    + apply settle_complete. cbn. constructor.
    + destruct (sendable content (world s)) eqn:E.
      * rewrite (handleSendMessage_accepted _ _ E). cbn [world].
        apply settle_complete. cbn [posted page chatContent].
        apply Forall_app. split; [exact Ht|]. repeat constructor.
      * rewrite (handleSendMessage_rejected _ _ E). cbn [world].
        now apply settle_complete.
    + destruct (timers s !! n); [|exact Ht]. cbn [world].
      rewrite handleSendMessage_resume_run. cbn [snd].
      apply settle_complete. cbn [posted page chatContent].
      apply Forall_app. split; [exact Ht|]. repeat constructor.
  - rewrite step_history. destruct e as [id| |content|n]; try exact Hh.
    + destruct (sendable content (world s)); [|exact Hh].
      apply Forall_app. split; [exact Hh|]. repeat constructor.
    + destruct (timers s !! n); [|exact Hh].
      apply Forall_app. split; [exact Hh|]. repeat constructor.
Qed.

(** X12. Of the four values [status] may take, the page only ever shows
    ['complete']: every message of the thread on screen, seeded or appended,
    and every message the handlers have appended has that status. *)
Theorem every_message_is_complete
    (clk : nat -> Z) (sfx : nat -> string) (evs : list Event) :
  Forall isComplete (thread (exec evs (boot clk sfx)))
  /\ Forall (fun entry => isComplete (snd entry)) (history (exec evs (boot clk sfx))).
Proof.
  induction evs as [|e evs IH] using rev_ind.
  - split; [|constructor].
    apply (storedThread_complete (clk 0%nat) "conv-1"). reflexivity.
  - rewrite exec_snoc. now apply step_complete.
Qed.

(** ** Relative time stamps ([formatTimestamp]) *)

Lemma div_lt_iff (a d q : Z) : 0 < d -> (a / d < q <-> a < d * q).
Proof.
  intros Hd. split; intros H.
  - destruct (Z.lt_ge_cases a (d * q)) as [|Hge]; [assumption|].
    apply Z.div_le_lower_bound in Hge; [lia | exact Hd].
  - now apply Z.div_lt_upper_bound.
Qed.

Lemma div_ltb (a d q : Z) : 0 < d -> Z.ltb (a / d) q = Z.ltb a (d * q).
Proof.
  intros Hd. destruct (Z.ltb_spec (a / d) q) as [H|H], (Z.ltb_spec a (d * q)) as [H'|H'];
    try reflexivity; pose proof (div_lt_iff a d q Hd); lia.
Qed.

Lemma div_bracket (a d lo hi : Z) :
  0 < d -> d * lo <= a < d * hi -> lo <= a / d <= hi - 1.
Proof.
  intros Hd [Hlo Hhi]. split.
  - now apply Z.div_le_lower_bound.
  - apply (div_lt_iff a d hi Hd) in Hhi. lia.
Qed.

(** X13. What the sidebar shows depends on the age of the date, the time
    elapsed since it at the moment of the call, by brackets: under one
    minute, or for a date in the future, "Just now"; under one hour the
    whole minutes, from 1 to 59; under one day the whole hours, from 1 to
    23; under seven days the whole days, from 1 to 6; from seven days on the
    date in the locale's format. *)
Theorem formatTimestamp_by_age_brackets
    (toLocaleDateString : Z -> string) (date : Z) (w : World) :
  fst (formatTimestamp toLocaleDateString date w)
  = Ok (if (clock w (clockReads w) - date <? 60000)%Z then "Just now"
        else if (clock w (clockReads w) - date <? 3600000)%Z then
          Js.Number_toString ((clock w (clockReads w) - date) / 60000) +:+ "m ago"
        else if (clock w (clockReads w) - date <? 86400000)%Z then
          Js.Number_toString ((clock w (clockReads w) - date) / 3600000) +:+ "h ago"
        else if (clock w (clockReads w) - date <? 604800000)%Z then
          Js.Number_toString ((clock w (clockReads w) - date) / 86400000) +:+ "d ago"
        else toLocaleDateString date)
  /\ (60000 <= clock w (clockReads w) - date < 3600000 ->
      1 <= (clock w (clockReads w) - date) / 60000 <= 59)
  /\ (3600000 <= clock w (clockReads w) - date < 86400000 ->
      1 <= (clock w (clockReads w) - date) / 3600000 <= 23)
  /\ (86400000 <= clock w (clockReads w) - date < 604800000 ->
      1 <= (clock w (clockReads w) - date) / 86400000 <= 6).
Proof.
  split; [|split; [|split]; intros H].
  2: apply (div_bracket _ 60000 1 60); lia.
  2: apply (div_bracket _ 3600000 1 24); lia.
  2: apply (div_bracket _ 86400000 1 7); lia.
  unfold formatTimestamp, bind, new_Date, Date_now. cbn [fst snd].
  set (age := clock w (clockReads w) - date).
  rewrite !div_ltb by lia.
  change (60000 * 1) with 60000. change (60000 * 60) with 3600000.
  change (3600000 * 24) with 86400000. change (86400000 * 7) with 604800000.
  destruct (Z.ltb age 60000); [reflexivity|].
  destruct (Z.ltb age 3600000); [reflexivity|].
  destruct (Z.ltb age 86400000); [reflexivity|].
  destruct (Z.ltb age 604800000); reflexivity.
Qed.

(** ** The form field ([lib/components/Input.svelte]) *)

Lemma afterClicks_password (clicks : nat) :
  FormInput.afterClicks FormInput.password clicks = Nat.odd clicks.
Proof.
  induction clicks as [|n IH]; [reflexivity|].
  cbn [FormInput.afterClicks FormInput.isPassword]. rewrite IH.
  unfold FormInput.togglePassword. now rewrite Nat.odd_succ, Nat.negb_odd.
Qed.

Lemma afterClicks_other (type : FormInput.InputType) (clicks : nat) :
  FormInput.isPassword type = false -> FormInput.afterClicks type clicks = false.
Proof.
  intros H. induction clicks as [|n IH]; [reflexivity|].
  cbn [FormInput.afterClicks]. now rewrite H.
Qed.

(** X14. The type given to the [input] element after any number of
    activations of what the field renders: a password field is shown as
    text after an odd number of clicks on its toggle and as a password
    after an even number; a field of any other type keeps its type, has no
    toggle, and is the only kind that can show a right icon. *)
Theorem form_field_shows_password_after_odd_toggles
    (type : FormInput.InputType) (clicks : nat) (rightIcon : option string) :
  FormInput.inputType type (FormInput.afterClicks type clicks)
  = (if FormInput.isPassword type && Nat.odd clicks then FormInput.text else type)
  /\ (FormInput.inputType type (FormInput.afterClicks type clicks) <> type ->
      type = FormInput.password /\ Nat.odd clicks = true)
  /\ (FormInput.showsRightIcon type rightIcon = true -> type <> FormInput.password).
Proof.
  assert (FormInput.inputType type (FormInput.afterClicks type clicks)
          = (if FormInput.isPassword type && Nat.odd clicks
             then FormInput.text else type)) as E.
  { destruct (FormInput.isPassword type) eqn:Hp.
    - destruct type; try discriminate. rewrite afterClicks_password.
      unfold FormInput.inputType. reflexivity.
    - rewrite (afterClicks_other _ _ Hp). unfold FormInput.inputType.
      now rewrite Hp. }
  split; [exact E|]. split.
  - rewrite E. destruct type; cbn; try congruence.
    destruct (Nat.odd clicks); [tauto | congruence].
  - unfold FormInput.showsRightIcon. destruct rightIcon; [|discriminate].
    intros H ->. cbn in H. now rewrite andb_false_r in H.
Qed.

(** ** Message ids ([generateMessageId]) *)

Lemma string_of_uint_digits (d : Decimal.uint) :
  digitsOnly (NilEmpty.string_of_uint d) = true.
Proof. induction d; cbn; auto. Qed.

Lemma Number_toString_shape (z : Z) :
  exists digits,
    digitsOnly digits = true /\ digits <> EmptyString
    /\ (Js.Number_toString z = digits \/ Js.Number_toString z = String "-" digits).
Proof.
  assert (forall d, d <> Decimal.Nil ->
            digitsOnly (NilZero.string_of_uint d) = true
            /\ NilZero.string_of_uint d <> EmptyString) as Hu.
  { intros d Hd. split.
    - destruct d; try contradiction; apply (string_of_uint_digits _).
    - destruct d; try contradiction; discriminate. }
  unfold Js.Number_toString. destruct z as [|p|p]; cbn [Z.to_int NilZero.string_of_int].
  - exists "0". repeat split; [discriminate | now left].
  - destruct (Hu _ (DecimalPos.Unsigned.to_uint_nonnil p)) as [H1 H2].
    eexists. repeat split; [exact H1 | exact H2 | now left].
  - destruct (Hu _ (DecimalPos.Unsigned.to_uint_nonnil p)) as [H1 H2].
    eexists. repeat split; [exact H1 | exact H2 | now right].
Qed.

Lemma digits_then_dash (d1 d2 r1 r2 : string) :
  digitsOnly d1 = true -> digitsOnly d2 = true ->
  d1 +:+ String "-" r1 = d2 +:+ String "-" r2 ->
  d1 = d2 /\ r1 = r2.
Proof.
  revert d2. induction d1 as [|c d1 IH]; intros d2 H1 H2 E.
  - destruct d2 as [|c2 d2]; unappend.
    + injection E as ->. now split.
    + injection E as <- _. cbn in H2. discriminate.
  - destruct d2 as [|c2 d2]; unappend.
    + injection E as -> _. cbn in H1. discriminate.
    + injection E as -> E. cbn in H1, H2.
      apply andb_true_iff in H1 as [_ H1]. apply andb_true_iff in H2 as [_ H2].
      destruct (IH d2 H1 H2 E) as [-> ->]. now split.
Qed.

Lemma number_then_dash (a b : Z) (r1 r2 : string) :
  Js.Number_toString a +:+ String "-" r1 = Js.Number_toString b +:+ String "-" r2 ->
  a = b /\ r1 = r2.
Proof.
  intros E.
  assert (Js.Number_toString a = Js.Number_toString b /\ r1 = r2) as [H ->];
    [|split; [now apply Number_toString_inj | reflexivity]].
  destruct (Number_toString_shape a) as (da & Ha & Hna & [Ea|Ea]),
           (Number_toString_shape b) as (db & Hb & Hnb & [Eb|Eb]);
    rewrite Ea, Eb in *; unappend.
  - destruct (digits_then_dash _ _ _ _ Ha Hb E) as [-> ->]. now split.
  - destruct da as [|c da]; [contradiction|]. unappend.
    injection E as -> _. cbn in Ha. discriminate.
  - destruct db as [|c db]; [contradiction|]. unappend.
    injection E as <- _. cbn in Hb. discriminate.
  - injection E as E.
    destruct (digits_then_dash _ _ _ _ Ha Hb E) as [-> ->]. now split.
Qed.

(** X15. A message id determines both the reading of the clock and the
    random suffix it was built from: two calls return the same id exactly
    when they got the same time and the same suffix, whatever the suffix
    contains. *)
Theorem generateMessageId_same_id_iff_same_time_and_suffix (w1 w2 : World) :
  fst (generateMessageId w1) = fst (generateMessageId w2)
  <-> clock w1 (clockReads w1) = clock w2 (clockReads w2)
      /\ suffixes w1 (suffixReads w1) = suffixes w2 (suffixReads w2).
Proof.
  cbn. split.
  - intros [= E]. apply append_inj_r in E. unappend.
    now apply number_then_dash in E.
  - now intros [-> ->].
Qed.

(** ** Keywords inside a text ([generateMockResponse]) *)

Lemma toLowerCase_append (a b : string) :
  Js.toLowerCase (a +:+ b) = Js.toLowerCase a +:+ Js.toLowerCase b.
Proof.
  induction a as [|c a IH]; unappend; [reflexivity|].
  cbn [Js.toLowerCase]. unappend. now rewrite IH.
Qed.

(** X16. The first rule looks for its keywords anywhere in the text and in
    any letter case, inside longer words too: a text that holds "issue" or
    "bug", however capitalised and whatever surrounds it, gets the issues
    menu, also when it holds keywords of the later rules. *)
Theorem issue_or_bug_anywhere_in_any_case_gets_the_issues_menu
    (before keyword after : string) :
  Js.toLowerCase keyword = "issue" \/ Js.toLowerCase keyword = "bug" ->
  generateMockResponse (before +:+ keyword +:+ after) = issuesReply.
Proof.
  intros H. unfold generateMockResponse.
  rewrite !toLowerCase_append.
  destruct H as [-> | ->].
  - rewrite (proj2 (includes_true_iff _ "issue")); [reflexivity|].
    now exists (Js.toLowerCase before), (Js.toLowerCase after).
  - rewrite (proj2 (includes_true_iff _ "bug")); [now rewrite orb_true_r|].
    now exists (Js.toLowerCase before), (Js.toLowerCase after).
Qed.

Lemma issue_or_bug_witness :
  generateMockResponse ("Please de" +:+ "BUG" +:+ "ger my pull request stats")
  = issuesReply.
Proof.
  apply issue_or_bug_anywhere_in_any_case_gets_the_issues_menu.
  right. reflexivity.
Defined.

(** ** The mount effect ([$effect]) *)

Lemma settle_selects_first (w : World) (conv : Conversation.t)
    (rest : list Conversation.t) :
  conversations (page w) = conv :: rest ->
  currentConversationId (page w) = None ->
  currentConversationId (page (settle w)) = Some (Conversation.id conv).
Proof.
  intros Hc E. unfold settle, autoSelectEffect, bind, getPage.
  destruct (conversations (page w)) as [|conv' rest'] eqn:Hc'; [discriminate|].
  injection Hc as -> ->.
  destruct (currentConversationId (page w)) eqn:E'; [discriminate|].
  unfold set_currentConversationId, modifyPage.
  cbn [fst snd page currentConversationId].
  rewrite loadConversationMessages_run. cbn [moduleNow].
  destruct (storedThread (moduleNow w) (Conversation.id conv)); reflexivity.
Qed.

(** X17. The effect settles in one run: run again it changes nothing.
    With no conversation listed it does nothing at all; with one or more
    it leaves a selection, the first listed conversation when there was
    none. *)
Theorem mount_effect_settles_in_one_run (w : World) :
  settle (settle w) = settle w
  /\ (conversations (page w) = [] -> settle w = w)
  /\ (forall conv rest,
        conversations (page w) = conv :: rest ->
        currentConversationId (page (settle w))
        = match currentConversationId (page w) with
          | Some id => Some id
          | None => Some (Conversation.id conv)
          end).
Proof.
  assert (forall conv rest,
            conversations (page w) = conv :: rest ->
            currentConversationId (page (settle w))
            = match currentConversationId (page w) with
              | Some id => Some id
              | None => Some (Conversation.id conv)
              end) as Hsel.
  { intros conv rest Hc.
    destruct (currentConversationId (page w)) as [id|] eqn:E.
    - rewrite settle_selected; [exact E | congruence].
    - now apply (settle_selects_first w conv rest). }
  split; [|split; [|exact Hsel]].
  - destruct (conversations (page w)) as [|conv rest] eqn:Hc.
    + unfold settle at 2, autoSelectEffect, bind, getPage. rewrite Hc. cbn.
      unfold settle, autoSelectEffect, bind, getPage. now rewrite Hc.
    + apply settle_selected. rewrite (Hsel conv rest eq_refl).
      now destruct (currentConversationId (page w)).
  - intros Hc. unfold settle, autoSelectEffect, bind, getPage. now rewrite Hc.
Qed.

(** ** The processing flag while a reply is pending *)





Lemma flag_cleared_by_new_chat_too :
  feasible [SendMessage "hello"; CreateNew]
           (boot (ticking 1000) (sameSuffix "k3j9x0a1b")) = true
  /\ timers (exec [SendMessage "hello"; CreateNew]
                  (boot (ticking 1000) (sameSuffix "k3j9x0a1b")))
     = [mkPending "hello"]
  /\ isProcessing
       (page (world (exec [SendMessage "hello"; CreateNew]
                          (boot (ticking 1000) (sameSuffix "k3j9x0a1b"))))) = false.
Proof. vm_compute. repeat split. Qed.
